(** * gethosts: cache-or-refresh of a Foreman host list

    A shallow embedding of [gethosts.go].  Go strings and byte slices are
    byte sequences; they are modelled as [string] (a sequence of 8-bit
    [ascii] characters), so that [string(data)] and [[]byte(rt)] are the
    identity.  The file system, the clock, the network and the process
    log form an explicit [World] that every operation threads through. *)

From Stdlib Require Import ZArith NArith List String Ascii Bool Lia.
From stdpp Require Import base gmap strings.

Import ListNotations.
Local Open Scope string_scope.
Local Open Scope Z_scope.
Local Open Scope list_scope.

(** ** The part of Go's [strings] package that [main] uses *)

Module strings.

(** [strings.HasPrefix(s, prefix)]. *)
Fixpoint HasPrefix (s prefix : string) : bool :=
  match prefix, s with
  | EmptyString, _ => true
  | String _ _, EmptyString => false
  | String p prefix', String c s' =>
      if Ascii.eqb c p then HasPrefix s' prefix' else false
  end.

(** [strings.Index(s, substr)]: the byte offset of the first occurrence
    of [substr] in [s]; Go's [-1] is [None]. *)
Fixpoint Index (s substr : string) : option nat :=
  if HasPrefix s substr then Some O
  else match s with
       | EmptyString => None
       | String _ s' => option_map S (Index s' substr)
       end.

(** The splitting loop of [strings.Split(s, sep)] for a non-empty [sep]:
    the text is scanned from the left; at an occurrence of [sep] the
    current piece ends and the scan resumes behind the separator
    ([skip] counts the separator bytes still to be passed over).  The
    head of the result is the piece under construction. *)
Fixpoint split_from (sep : string) (skip : nat) (s : string) : list string :=
  match s with
  | EmptyString => [EmptyString]
  | String c s' =>
      match skip with
      | S k => split_from sep k s'
      | O =>
          if HasPrefix s sep
          then EmptyString :: split_from sep (Nat.pred (String.length sep)) s'
          else match split_from sep O s' with
               | piece :: pieces => String c piece :: pieces
               | [] => [String c EmptyString]
               end
      end
  end.

(** [strings.Split(s, sep)].  With an empty separator Go explodes [s]
    into its UTF-8 sequences; the program only ever passes ["\n"], and
    the model leaves [s] whole in that case. *)
Definition Split (s sep : string) : list string :=
  match sep with
  | EmptyString => [s]
  | String _ _ => split_from sep O s
  end.

End strings.

(** The line feed as a byte, and Go's ["\n"]. *)
Definition lf : ascii := ascii_of_nat 10.
Definition LF : string := String lf EmptyString.

(** ** Data model *)

(** [type Result struct { Name string }] *)
Record Result := mkResult { Name : string }.

(** [type Response struct { Results []Result }] *)
Record Response := mkResponse { Results : list Result }.

(** The loop of [downloadParseHosts] that fills the [bytes.Buffer]:
    [for _, host := range hosts.Results { buffer.WriteString(host.Name + "\n") }]
    followed by [buffer.String()]. *)
Definition formatHosts (hosts : Response) : string :=
  fold_left (fun buffer host => buffer +:+ (Name host +:+ LF)) (Results hosts) "".

(** The formatting as the specification words it: the names in order, one
    per line, a line feed after the last one; nothing for no name. *)
Definition names_one_per_line (names : list string) : string :=
  match names with
  | [] => ""
  | _ :: _ => String.concat LF names +:+ LF
  end.

(** Every name followed by a line feed, in order. *)
Definition lines (names : list string) : string :=
  fold_right (fun name rest => name +:+ LF +:+ rest) "" names.

(** ** Errors *)

(** The [error] values the program can see.  [SyntaxError] and
    [UnmarshalTypeError] are those of [encoding/json] (the latter with the
    JSON kind it met and the Go type it was decoding into); an error of the
    operating system or of the network is kept as its message. *)
Inductive error :=
| SyntaxError
| UnmarshalTypeError (Value : string) (Type_ : string)
| ExternalError (msg : string).

(** ** [encoding/json]: the syntax of a payload

    [json.Unmarshal] first checks that the whole input is one JSON value
    (its scanner is a push-down automaton fed one byte at a time), and
    only then decodes.  The model splits the scanner in two total passes:
    a byte-driven automaton that cuts the input into tokens, and a
    push-down automaton over the tokens that builds the value. *)

Module json.

Inductive token :=
| TLBrace | TRBrace | TLBracket | TRBracket | TColon | TComma
| TString (raw : string)
| TNumber
| TTrue | TFalse | TNull.

(** The scanner's number states ([stateNeg], [state0], [state1],
    [stateDot], [stateDot0], [stateE], [stateESign], [stateE0]). *)
Inductive num_state :=
| stateNeg | state0 | state1 | stateDot | stateDot0
| stateE | stateESign | stateE0.

Inductive lex_state :=
| stateBeginValue
| stateInString (acc : list ascii)
| stateInStringEsc (acc : list ascii)
| stateInStringEscU (acc : list ascii) (missing : nat)
| stateInNumber (st : num_state)
| stateInLiteral (tok : token) (rest : string).

Definition byte_of (c : ascii) : Z := Z.of_N (N_of_ascii c).

(** The double quote, byte 34. *)
Definition dquote : ascii := ascii_of_nat 34.

(** [isSpace]: [' '], ['\t'], ['\r'], ['\n']. *)
Definition isSpace (c : ascii) : bool :=
  let b := byte_of c in
  (b =? 32) || (b =? 9) || (b =? 13) || (b =? 10).

Definition isDigit (c : ascii) : bool :=
  let b := byte_of c in (48 <=? b) && (b <=? 57).

Definition isHex (c : ascii) : bool :=
  let b := byte_of c in
  ((48 <=? b) && (b <=? 57)) || ((97 <=? b) && (b <=? 102))
  || ((65 <=? b) && (b <=? 70)).

(** The bytes that may follow a backslash, [u] apart. *)
Definition isSimpleEscape (c : ascii) : bool :=
  existsb (Ascii.eqb c) (dquote :: list_ascii_of_string "\/bfnrt").

(** [stateBeginValue] (and the states between values, which the token
    automaton below tells apart): the byte starts a token or is space. *)
Definition step_begin (c : ascii) : option (lex_state * list token) :=
  if isSpace c then Some (stateBeginValue, [])
  else if Ascii.eqb c "{" then Some (stateBeginValue, [TLBrace])
  else if Ascii.eqb c "}" then Some (stateBeginValue, [TRBrace])
  else if Ascii.eqb c "[" then Some (stateBeginValue, [TLBracket])
  else if Ascii.eqb c "]" then Some (stateBeginValue, [TRBracket])
  else if Ascii.eqb c ":" then Some (stateBeginValue, [TColon])
  else if Ascii.eqb c "," then Some (stateBeginValue, [TComma])
  else if Ascii.eqb c dquote then Some (stateInString [], [])
  else if Ascii.eqb c "-" then Some (stateInNumber stateNeg, [])
  else if Ascii.eqb c "0" then Some (stateInNumber state0, [])
  else if isDigit c then Some (stateInNumber state1, [])
  else if Ascii.eqb c "t" then Some (stateInLiteral TTrue "rue", [])
  else if Ascii.eqb c "f" then Some (stateInLiteral TFalse "alse", [])
  else if Ascii.eqb c "n" then Some (stateInLiteral TNull "ull", [])
  else None.

(** A number may end in [state0], [state1], [stateDot0] and [stateE0]. *)
Definition num_complete (st : num_state) : bool :=
  match st with
  | state0 | state1 | stateDot0 | stateE0 => true
  | _ => false
  end.

(** One byte inside a number: [Some st'] when the byte continues it. *)
Definition num_step (st : num_state) (c : ascii) : option num_state :=
  let dot_or_exp :=
    if Ascii.eqb c "." then Some stateDot
    else if Ascii.eqb c "e" || Ascii.eqb c "E" then Some stateE
    else None in
  match st with
  | stateNeg =>
      if Ascii.eqb c "0" then Some state0
      else if isDigit c then Some state1 else None
  | state0 => dot_or_exp
  | state1 => if isDigit c then Some state1 else dot_or_exp
  | stateDot => if isDigit c then Some stateDot0 else None
  | stateDot0 =>
      if isDigit c then Some stateDot0
      else if Ascii.eqb c "e" || Ascii.eqb c "E" then Some stateE
      else None
  | stateE =>
      if Ascii.eqb c "+" || Ascii.eqb c "-" then Some stateESign
      else if isDigit c then Some stateE0 else None
  | stateESign => if isDigit c then Some stateE0 else None
  | stateE0 => if isDigit c then Some stateE0 else None
  end.

(** The scanner fed one byte: the next state and the tokens completed
    by the byte, or [None] for a syntax error. *)
Definition lex_step (st : lex_state) (c : ascii)
  : option (lex_state * list token) :=
  match st with
  | stateBeginValue => step_begin c
  | stateInString acc =>
      if Ascii.eqb c dquote
      then Some (stateBeginValue, [TString (string_of_list_ascii (rev acc))])
      else if Ascii.eqb c "\" then Some (stateInStringEsc (c :: acc), [])
      else if byte_of c <? 32 then None
      else Some (stateInString (c :: acc), [])
  | stateInStringEsc acc =>
      if isSimpleEscape c then Some (stateInString (c :: acc), [])
      else if Ascii.eqb c "u" then Some (stateInStringEscU (c :: acc) 4, [])
      else None
  | stateInStringEscU acc missing =>
      if isHex c
      then match missing with
           | S (S k) => Some (stateInStringEscU (c :: acc) (S k), [])
           | _ => Some (stateInString (c :: acc), [])
           end
      else None
  | stateInNumber ns =>
      match num_step ns c with
      | Some ns' => Some (stateInNumber ns', [])
      | None =>
          if num_complete ns
          then match step_begin c with
               | Some (st', toks) => Some (st', TNumber :: toks)
               | None => None
               end
          else None
      end
  | stateInLiteral tok rest =>
      match rest with
      | String r rest' =>
          if Ascii.eqb c r
          then match rest' with
               | EmptyString => Some (stateBeginValue, [tok])
               | String _ _ => Some (stateInLiteral tok rest', [])
               end
          else None
      | EmptyString => None
      end
  end.

(** The end of the input: only a complete number may be pending. *)
Definition lex_eof (st : lex_state) : option (list token) :=
  match st with
  | stateBeginValue => Some []
  | stateInNumber ns => if num_complete ns then Some [TNumber] else None
  | _ => None
  end.

Fixpoint lex (st : lex_state) (data : string) : option (list token) :=
  match data with
  | EmptyString => lex_eof st
  | String c data' =>
      match lex_step st c with
      | Some (st', toks) => option_map (app toks) (lex st' data')
      | None => None
      end
  end.

(** *** From tokens to a value *)

(** A JSON value.  A string has its escapes already resolved; of a
    number only the kind is kept, since no field of [Response] can take
    one. *)
#[warnings="-register-all"] Inductive value :=
| Null
| Bool (b : bool)
| Number
| Str (s : string)
| Array (elems : list value)
| Object (members : list (string * value)).

(** [utf8.EncodeRune]: the UTF-8 bytes of a code point; a surrogate or a
    value beyond U+10FFFF is written as U+FFFD. *)
Definition chr (b : Z) : ascii := ascii_of_N (Z.to_N b).

Definition RuneError : Z := 65533.

Definition EncodeRune (r : Z) : string :=
  let r := if (r <? 0) || (1114111 <? r) || ((55296 <=? r) && (r <=? 57343))
           then RuneError else r in
  if r <=? 127 then String (chr r) ""
  else if r <=? 2047 then
    String (chr (Z.lor 192 (Z.shiftr r 6)))
      (String (chr (Z.lor 128 (Z.land r 63))) "")
  else if r <=? 65535 then
    String (chr (Z.lor 224 (Z.shiftr r 12)))
      (String (chr (Z.lor 128 (Z.land (Z.shiftr r 6) 63)))
         (String (chr (Z.lor 128 (Z.land r 63))) ""))
  else
    String (chr (Z.lor 240 (Z.shiftr r 18)))
      (String (chr (Z.lor 128 (Z.land (Z.shiftr r 12) 63)))
         (String (chr (Z.lor 128 (Z.land (Z.shiftr r 6) 63)))
            (String (chr (Z.lor 128 (Z.land r 63))) ""))).

(** The first-byte table of [utf8.DecodeRune]: for a lead byte, the
    length of the sequence and the range its second byte must lie in. *)
Definition utf8_first (p0 : Z) : option (nat * Z * Z) :=
  if (194 <=? p0) && (p0 <=? 223) then Some (2%nat, 128, 191)
  else if p0 =? 224 then Some (3%nat, 160, 191)
  else if p0 =? 237 then Some (3%nat, 128, 159)
  else if (225 <=? p0) && (p0 <=? 239) then Some (3%nat, 128, 191)
  else if p0 =? 240 then Some (4%nat, 144, 191)
  else if (241 <=? p0) && (p0 <=? 243) then Some (4%nat, 128, 191)
  else if p0 =? 244 then Some (4%nat, 128, 143)
  else None.

Definition in_range (lo hi : Z) (c : ascii) : bool :=
  (lo <=? byte_of c) && (byte_of c <=? hi).

(** The size of the well-formed UTF-8 sequence that starts [s], for a
    lead byte of 128 or more; [None] where [utf8.DecodeRune] answers
    [(RuneError, 1)]. *)
Definition utf8_size (s : string) : option nat :=
  match s with
  | String p0 rest =>
      match utf8_first (byte_of p0), rest with
      | Some (2%nat, lo, hi), String b1 _ =>
          if in_range lo hi b1 then Some 2%nat else None
      | Some (3%nat, lo, hi), String b1 (String b2 _) =>
          if in_range lo hi b1 && in_range 128 191 b2
          then Some 3%nat else None
      | Some (4%nat, lo, hi), String b1 (String b2 (String b3 _)) =>
          if in_range lo hi b1 && in_range 128 191 b2 && in_range 128 191 b3
          then Some 4%nat else None
      | _, _ => None
      end
  | EmptyString => None
  end.

Definition hex_val (c : ascii) : Z :=
  let b := byte_of c in
  if (48 <=? b) && (b <=? 57) then b - 48
  else if (97 <=? b) && (b <=? 102) then b - 87
  else b - 55.

(** [getu4]: the code unit of a [\uXXXX] that starts [s], Go's [-1]
    being [None]. *)
Definition getu4 (s : string) : option Z :=
  match s with
  | String b (String u (String h1 (String h2 (String h3 (String h4 _))))) =>
      if Ascii.eqb b "\" && Ascii.eqb u "u"
         && isHex h1 && isHex h2 && isHex h3 && isHex h4
      then Some (4096 * hex_val h1 + 256 * hex_val h2
                 + 16 * hex_val h3 + hex_val h4)
      else None
  | _ => None
  end.

(** [utf16.IsSurrogate]. *)
Definition IsSurrogate (r : Z) : bool := (55296 <=? r) && (r <? 57344).

(** [utf16.DecodeRune]: the code point of a surrogate pair, [None] for
    the replacement character Go returns on an ill-formed pair. *)
Definition DecodeRune16 (r1 r2 : Z) : option Z :=
  if (55296 <=? r1) && (r1 <? 56320) && (56320 <=? r2) && (r2 <? 57344)
  then Some (Z.lor (Z.shiftl (r1 - 55296) 10) (r2 - 56320) + 65536)
  else None.

(** The byte a one-letter escape stands for. *)
Definition escape_byte (e : ascii) : ascii :=
  if Ascii.eqb e "b" then chr 8
  else if Ascii.eqb e "f" then chr 12
  else if Ascii.eqb e "n" then chr 10
  else if Ascii.eqb e "r" then chr 13
  else if Ascii.eqb e "t" then chr 9
  else e.

(** [unquoteBytes] on what stands between the quotes of a string the
    scanner has accepted: escapes are resolved, a surrogate pair becomes
    one code point, a lone surrogate and every byte that is not part of
    well-formed UTF-8 become U+FFFD. *)
Fixpoint unquote (s : string) : string :=
  match s with
  | EmptyString => EmptyString
  | String c s1 =>
      if Ascii.eqb c "\" then
        match s1 with
        | String e s2 =>
            if Ascii.eqb e "u" then
              match s2 with
              | String _ (String _ (String _ (String _ s3))) =>
                  match getu4 s with
                  | Some rr =>
                      if IsSurrogate rr then
                        match s3 with
                        | String _ (String _ (String _ (String _
                            (String _ (String _ s4))))) =>
                            match getu4 s3 with
                            | Some rr1 =>
                                match DecodeRune16 rr rr1 with
                                | Some dec => EncodeRune dec +:+ unquote s4
                                | None => EncodeRune RuneError +:+ unquote s3
                                end
                            | None => EncodeRune RuneError +:+ unquote s3
                            end
                        | _ => EncodeRune RuneError +:+ unquote s3
                        end
                      else EncodeRune rr +:+ unquote s3
                  | None => EmptyString
                  end
              | _ => EmptyString
              end
            else String (escape_byte e) (unquote s2)
        | EmptyString => EmptyString
        end
      else if byte_of c <? 128 then String c (unquote s1)
      else
        match utf8_size s, s1 with
        | Some 2%nat, String b1 s2 => String c (String b1 (unquote s2))
        | Some 3%nat, String b1 (String b2 s3) =>
            String c (String b1 (String b2 (unquote s3)))
        | Some 4%nat, String b1 (String b2 (String b3 s4)) =>
            String c (String b1 (String b2 (String b3 (unquote s4))))
        | _, _ => EncodeRune RuneError +:+ unquote s1
        end
  end.

(** The scanner's stack of open containers ([parseState]): an array
    with the elements read so far, or an object with the members read so
    far and the key whose value is awaited (both latest first). *)
Inductive frame :=
| InArray (elems : list value)
| InObject (members : list (string * value)) (key : option string).

(** What the scanner accepts next. *)
Inductive expect :=
| BeginValue            (* a value *)
| BeginValueOrEmpty     (* a value, or the bracket closing an empty array *)
| BeginStringOrEmpty    (* a key, or the brace closing an empty object *)
| BeginString           (* a key *)
| ObjectKey             (* the colon behind a key *)
| EndValue              (* a comma or the end of the open container *)
| EndTop (v : value).   (* the value is complete *)

(** [maxNestingDepth]. *)
Definition maxNestingDepth : Z := 10000.

(** A complete value is handed to the innermost open container. *)
Definition deliver (v : value) (stack : list frame)
  : option (expect * list frame) :=
  match stack with
  | [] => Some (EndTop v, [])
  | InArray elems :: stack' => Some (EndValue, InArray (v :: elems) :: stack')
  | InObject members (Some k) :: stack' =>
      Some (EndValue, InObject ((k, v) :: members) None :: stack')
  | InObject _ None :: _ => None
  end.

(** [pushParseState]: a container is opened unless that exceeds the
    nesting limit. *)
Definition push (f : frame) (e : expect) (stack : list frame)
  : option (expect * list frame) :=
  if Z.of_nat (List.length (f :: stack)) <=? maxNestingDepth
  then Some (e, f :: stack) else None.

Definition begin_value (t : token) (stack : list frame)
  : option (expect * list frame) :=
  match t with
  | TLBrace => push (InObject [] None) BeginStringOrEmpty stack
  | TLBracket => push (InArray []) BeginValueOrEmpty stack
  | TString raw => deliver (Str (unquote raw)) stack
  | TNumber => deliver Number stack
  | TTrue => deliver (Bool true) stack
  | TFalse => deliver (Bool false) stack
  | TNull => deliver Null stack
  | TRBrace | TRBracket | TColon | TComma => None
  end.

Definition begin_key (t : token) (stack : list frame)
  : option (expect * list frame) :=
  match t, stack with
  | TString raw, InObject members None :: stack' =>
      Some (ObjectKey, InObject members (Some (unquote raw)) :: stack')
  | _, _ => None
  end.

Definition end_container (t : token) (stack : list frame)
  : option (expect * list frame) :=
  match t, stack with
  | TRBracket, InArray elems :: stack' => deliver (Array (rev elems)) stack'
  | TRBrace, InObject members None :: stack' =>
      deliver (Object (rev members)) stack'
  | _, _ => None
  end.

Definition parse_step (e : expect) (stack : list frame) (t : token)
  : option (expect * list frame) :=
  match e with
  | BeginValue => begin_value t stack
  | BeginValueOrEmpty =>
      match t with
      | TRBracket => end_container t stack
      | _ => begin_value t stack
      end
  | BeginStringOrEmpty =>
      match t with
      | TRBrace => end_container t stack
      | _ => begin_key t stack
      end
  | BeginString => begin_key t stack
  | ObjectKey =>
      match t with
      | TColon => Some (BeginValue, stack)
      | _ => None
      end
  | EndValue =>
      match t, stack with
      | TComma, InArray _ :: _ => Some (BeginValue, stack)
      | TComma, InObject _ None :: _ => Some (BeginString, stack)
      | TComma, _ => None
      | _, _ => end_container t stack
      end
  | EndTop _ => None
  end.

Fixpoint parse_tokens (e : expect) (stack : list frame) (ts : list token)
  : option value :=
  match ts with
  | [] => match e with EndTop v => Some v | _ => None end
  | t :: ts' =>
      match parse_step e stack t with
      | Some (e', stack') => parse_tokens e' stack' ts'
      | None => None
      end
  end.

(** [checkValid] together with the reading of the value: [None] is a
    [SyntaxError]. *)
Definition parse_value (data : string) : option value :=
  match lex stateBeginValue data with
  | Some ts => parse_tokens BeginValue [] ts
  | None => None
  end.

(** *** Decoding into [Response] *)

(** [foldName]: the folding under which a key is compared with a field
    name once no field has the key's exact name.  ASCII letters go to
    upper case; the two letters outside ASCII whose Unicode case orbit
    holds an ASCII letter go to that letter, the long s (U+017F, bytes
    197 191) to [S] and the Kelvin sign (U+212A, bytes 226 132 170) to
    [K].  Every other byte is left as it is: Go folds such a rune to a
    rune outside ASCII, which is all that a comparison with the ASCII
    field names of this program depends on. *)
Fixpoint foldName (s : string) : string :=
  match s with
  | EmptyString => EmptyString
  | String c s1 =>
      let b := byte_of c in
      if (97 <=? b) && (b <=? 122) then String (chr (b - 32)) (foldName s1)
      else if b <? 128 then String c (foldName s1)
      else
        match s1 with
        | String c1 s2 =>
            if (b =? 197) && (byte_of c1 =? 191) then String "S" (foldName s2)
            else
              match s2 with
              | String c2 s3 =>
                  if (b =? 226) && (byte_of c1 =? 132) && (byte_of c2 =? 170)
                  then String "K" (foldName s3)
                  else String c (foldName s1)
              | EmptyString => String c (foldName s1)
              end
        | EmptyString => String c EmptyString
        end
  end.

(** Whether the object key [key] selects the struct field [field]: an
    exact match or, failing that, a match under folding.  Each struct of
    the program has one field, so the preference between the two plays
    no part. *)
Definition field_matches (field key : string) : bool :=
  String.eqb key field || String.eqb (foldName key) (foldName field).

(** [d.saveError]: only the first error is kept; decoding goes on. *)
Definition saveError (e : error) (saved : option error) : option error :=
  match saved with
  | Some _ => saved
  | None => Some e
  end.

(** The [Value] of an [UnmarshalTypeError]. *)
Definition kind_name (v : value) : string :=
  match v with
  | Null => "null"
  | Bool _ => "bool"
  | Number => "number"
  | Str _ => "string"
  | Array _ => "array"
  | Object _ => "object"
  end.

(** A value decoded into a [string] variable holding [cur]: [null]
    leaves it, a string is stored, anything else is a saved error. *)
Definition decode_string (v : value) (cur : string) (saved : option error)
  : string * option error :=
  match v with
  | Null => (cur, saved)
  | Str s => (s, saved)
  | _ => (cur, saveError (UnmarshalTypeError (kind_name v) "string") saved)
  end.

(** A value decoded into a [Result] variable holding [cur]: the members
    of an object are taken in order, those whose key selects [Name]
    decoded into the field, the others skipped. *)
Definition decode_Result (v : value) (cur : Result) (saved : option error)
  : Result * option error :=
  match v with
  | Null => (cur, saved)
  | Object members =>
      fold_left
        (fun (st : Result * option error) (m : string * value) =>
           if field_matches "Name" (fst m)
           then let (name, saved') := decode_string (snd m) (Name (fst st)) (snd st) in
                (mkResult name, saved')
           else st)
        members (cur, saved)
  | _ => (cur, saveError (UnmarshalTypeError (kind_name v) "main.Result") saved)
  end.

(** The elements of an array decoded into a slice whose backing array
    holds [store] (beyond it the memory is fresh, hence zero): element
    [i] is decoded into slot [i], which keeps what it held.  Returns the
    decoded elements and the part of the backing array not reached. *)
Fixpoint decode_elems (elems : list value) (store : list Result)
    (saved : option error) : list Result * list Result * option error :=
  match elems with
  | [] => ([], store, saved)
  | e :: elems' =>
      let (r, saved1) := decode_Result e (hd (mkResult "") store) saved in
      let '(rs, rest, saved2) := decode_elems elems' (tl store) saved1 in
      (r :: rs, rest, saved2)
  end.

(** A value decoded into the [[]Result] variable [cur], whose backing
    array holds [spare] behind the slice's length: [null] sets the slice
    to nil and an empty array to a fresh empty slice; the elements of an
    array are decoded in place and the slice is cut behind the last
    one. *)
Definition decode_Results (v : value) (cur spare : list Result)
    (saved : option error) : list Result * list Result * option error :=
  match v with
  | Null => ([], [], saved)
  | Array [] => ([], [], saved)
  | Array elems => decode_elems elems (cur ++ spare) saved
  | _ => (cur, spare,
          saveError (UnmarshalTypeError (kind_name v) "[]main.Result") saved)
  end.

(** A value decoded into the [Response] variable [cur]. *)
Definition decode_Response (v : value) (cur : Response)
  : Response * option error :=
  match v with
  | Null => (cur, None)
  | Object members =>
      let '(rs, _, saved) :=
        fold_left
          (fun (st : list Result * list Result * option error)
               (m : string * value) =>
             if field_matches "Results" (fst m)
             then decode_Results (snd m) (fst (fst st)) (snd (fst st)) (snd st)
             else st)
          members (Results cur, [], None) in
      (mkResponse rs, saved)
  | _ => (cur, Some (UnmarshalTypeError (kind_name v) "main.Response"))
  end.

(** [json.Unmarshal(data, &hosts)]: the variable as it is left, and the
    error.  On a syntax error nothing has been decoded. *)
Definition Unmarshal (data : string) (hosts : Response)
  : Response * option error :=
  match parse_value data with
  | Some v => decode_Response v hosts
  | None => (hosts, Some SyntaxError)
  end.

End json.

(** ** The world the program runs in *)

(** An entry of the file system as [os.Stat] and [ioutil.ReadFile] see
    it: its modification time, its bytes, and whether reading it succeeds
    (it does not for a directory or without permission). *)
Record File := mkFile {
  modTime : Z;
  content : string;
  readable : bool
}.

(** What the network answers to the one request of [downloadHosts]: the
    request cannot be built, the connection fails, the body cannot be read
    to its end, or the body arrives. *)
Inductive HttpOutcome :=
| RequestRejected (e : error)
| ConnectionFailed (e : error)
| BodyFailed (e : error)
| Body (data : string).

(** What the file system answers to [ioutil.WriteFile]: success, or an
    error that leaves the file untouched ([None]) or with other bytes. *)
Inductive WriteOutcome :=
| Written
| WriteFailed (e : error) (residue : option string).

(** The calls observed from outside, in the order they are made; a log
    line is identified by its format string. *)
Inductive event :=
| Stat (path : string)
| ReadFile (path : string)
| NewRequest (url : string)
| Do (url user password : string)
| ReadAll
| MkdirAll (path : string)
| WriteFile (path data : string)
| Log (format : string)
| Fatal (message : string).

(** Instants are integers (nanoseconds on one axis), as is a
    [time.Duration]; the bounds of Go's representations are not
    modelled.  A run reads the clock once, so the world holds one
    instant.  [files] maps a path to its entry; [http], [mkdirAll] and
    [writeFile] are the answers of the environment; [stdout] and [trace]
    grow as the program runs. *)
Record World := mkWorld {
  files : gmap string File;
  now : Z;
  http : string -> string -> string -> HttpOutcome;
  mkdirAll : string -> option error;
  writeFile : string -> string -> WriteOutcome;
  stdout : string;
  trace : list event
}.

(** [t.Add(d)] and [t.After(u)]. *)
Definition Add (t d : Z) : Z := t + d.
Definition After (t u : Z) : bool := u <? t.

(** *** A state monad over the world *)

Definition M (A : Type) : Type := World -> A * World.

Definition ret {A} (a : A) : M A := fun w => (a, w).

Definition bind {A B} (m : M A) (k : A -> M B) : M B :=
  fun w => let (a, w') := m w in k a w'.

Notation "'let*' x := m 'in' k" := (bind m (fun x => k))
  (at level 10, x pattern, m at level 100, k at level 200).
Notation "m >> k" := (bind m (fun _ => k))
  (at level 90, right associativity).

(** The world with further events on its trace. *)
Definition with_events (w : World) (evs : list event) : World :=
  mkWorld (files w) (now w) (http w) (mkdirAll w) (writeFile w) (stdout w)
          (trace w ++ evs).

Definition emit (e : event) : M unit := fun w => (tt, with_events w [e]).

Definition set_files (fs : gmap string File) : M unit :=
  fun w => (tt, mkWorld fs (now w) (http w) (mkdirAll w) (writeFile w)
                        (stdout w) (trace w)).

Definition get {A} (f : World -> A) : M A := fun w => (f w, w).

(** [log.Printf(format, ...)] and [log.Print(text, ...)]. *)
Definition log_Printf (format : string) : M unit := emit (Log format).
Definition log_Print (text : string) : M unit := emit (Log text).

(** [fmt.Fprintln(os.Stdout, s)]: [s] and a line feed. *)
Definition Println (s : string) : M unit :=
  fun w => (tt, mkWorld (files w) (now w) (http w) (mkdirAll w) (writeFile w)
                        (stdout w +:+ s +:+ LF) (trace w)).

(** The outcome of a call that returns a value and an [error]. *)
Inductive result (A : Type) :=
| Ok (a : A)
| Err (e : error).
Arguments Ok {A} a.
Arguments Err {A} e.

(** [os.Stat(path)]: the entry, or an error when there is none. *)
Definition os_Stat (path : string) : M (result File) :=
  emit (Stat path) >>
  let* fs := get files in
  ret (match fs !! path with
       | Some f => Ok f
       | None => Err (ExternalError "stat: no such file or directory")
       end).

(** [ioutil.ReadFile(path)]. *)
Definition ioutil_ReadFile (path : string) : M (result string) :=
  emit (ReadFile path) >>
  let* fs := get files in
  ret (match fs !! path with
       | Some f => if readable f then Ok (content f)
                   else Err (ExternalError "read: cannot read")
       | None => Err (ExternalError "open: no such file or directory")
       end).

(** [time.Now()]. *)
Definition time_Now : M Z := get now.

(** [os.MkdirAll(path, os.ModePerm)]. *)
Definition os_MkdirAll (path : string) : M (option error) :=
  emit (MkdirAll path) >>
  let* answer := get mkdirAll in
  ret (answer path).

(** [ioutil.WriteFile(path, data, os.ModePerm)]: a written file carries
    the instant of the run; the permissions of a file that was there stay
    what they were. *)
Definition store (path data : string) : M unit :=
  let* fs := get files in
  let* t := get now in
  set_files (<[path := mkFile t data
                         (match fs !! path with
                          | Some f => readable f
                          | None => true
                          end)]> fs).

Definition ioutil_WriteFile (path data : string) : M (option error) :=
  emit (WriteFile path data) >>
  let* answer := get writeFile in
  match answer path data with
  | Written => store path data >> ret None
  | WriteFailed e None => ret (Some e)
  | WriteFailed e (Some residue) => store path residue >> ret (Some e)
  end.

(** ** The program *)

(** [type HostGetter struct].  The flag pointers always point to a value;
    [HostPattern], nil until a pattern is given, is an [option]. *)
Record HostGetter := mkHostGetter {
  DownloadLocation : string;
  CacheLocation : string;
  User : string;
  Password : string;
  CacheFileName : string;
  HostPattern : option string;
  HostPrefix : string;
  CacheDuration : Z
}.

Section Program.

(** [filepath.Join] on two elements. *)
Variable Join : string -> string -> string.

(** [func (self *HostGetter) downloadHosts() ([]byte, error)] *)
Definition downloadHosts (self : HostGetter) : M (string * option error) :=
  emit (NewRequest (DownloadLocation self)) >>
  let* net := get http in
  let request := Do (DownloadLocation self) (User self) (Password self) in
  match net (DownloadLocation self) (User self) (Password self) with
  | RequestRejected e =>
      log_Printf "could not create new http request for %s" >>
      ret ("", Some e)
  | ConnectionFailed e =>
      emit request >>
      log_Printf "could not open http connection to download config from %s" >>
      ret ("", Some e)
  | BodyFailed e =>
      emit request >> emit ReadAll >>
      log_Printf "could not download config from %s" >>
      ret ("", Some e)
  | Body data =>
      emit request >> emit ReadAll >> ret (data, None)
  end.

(** [func (self *HostGetter) parse(data []byte) (hosts Response, err error)] *)
Definition parse (self : HostGetter) (data : string)
  : M (Response * option error) :=
  let (hosts, err) := json.Unmarshal data (mkResponse []) in
  match err with
  | Some _ => log_Print "error:" >> ret (hosts, err)
  | None => ret (hosts, err)
  end.

(** [func (self *HostGetter) downloadParseHosts() (rt string, err error)] *)
Definition downloadParseHosts (self : HostGetter) : M (string * option error) :=
  let* (data, err) := downloadHosts self in
  match err with
  | Some _ => log_Printf "failed to download" >> ret ("", err)
  | None =>
      let* (hosts, err) := parse self data in
      match err with
      | Some _ => log_Printf "could not parse" >> ret ("", err)
      | None => ret (formatHosts hosts, None)
      end
  end.

(** The second half of [getHosts], reached when the cache gave nothing:
    download, and on success try to save. *)
Definition refresh (self : HostGetter) (cacheLoc : string)
  : M (string * option error) :=
  let* (rt, err) := downloadParseHosts self in
  match err with
  | None =>
      log_Printf "downloaded and parsed - trying to save to cache" >>
      let* errd := os_MkdirAll (CacheLocation self) in
      match errd with
      | Some _ =>
          log_Printf "could not create cache dir %s (%v)" >> ret (rt, err)
      | None =>
          let* errf := ioutil_WriteFile cacheLoc rt in
          match errf with
          | Some _ =>
              log_Printf "downloaded and parsed ok, could not save to cache %v" >>
              ret (rt, err)
          | None => log_Printf "saved hosts in cache" >> ret (rt, err)
          end
      end
  | Some _ => log_Printf "could not get hosts" >> ret (rt, err)
  end.

(** [func (self *HostGetter) getHosts() (rt string, err error)] *)
Definition getHosts (self : HostGetter) : M (string * option error) :=
  let cacheLoc := Join (CacheLocation self) (CacheFileName self) in
  let* fi := os_Stat cacheLoc in
  match fi with
  | Err _ =>
      log_Printf "no file in cache, downloading %s (%v)" >>
      refresh self cacheLoc
  | Ok fi =>
      let* t := time_Now in
      if negb (After t (Add (modTime fi) (CacheDuration self))) then
        log_Printf "found file in cache" >>
        let* data := ioutil_ReadFile cacheLoc in
        match data with
        | Err _ =>
            log_Printf "corrupt file in cache, downloading %s (%v)" >>
            refresh self cacheLoc
        | Ok data => ret (data, None)
        end
      else refresh self cacheLoc
  end.

(** The handling of the pattern argument in [main]:
    [i := strings.Index(patt, "@")], and when there is one,
    [HostPrefix = patt[:i+1]] and [patt = patt[i+1:]]. *)
Definition setPattern (getter : HostGetter) (patt : string) : HostGetter :=
  let (prefix, patt) :=
    match strings.Index patt "@" with
    | Some i =>
        (substring 0 (i + 1) patt,
         substring (i + 1) (String.length patt - (i + 1)) patt)
    | None => (HostPrefix getter, patt)
    end in
  mkHostGetter (DownloadLocation getter) (CacheLocation getter) (User getter)
    (Password getter) (CacheFileName getter) (Some patt) prefix
    (CacheDuration getter).

(** The loop of [main] over the lines of the host text. *)
Fixpoint printMatching (prefix patt : string) (hostArr : list string) : M unit :=
  match hostArr with
  | [] => ret tt
  | line :: hostArr' =>
      (if strings.HasPrefix line patt then Println (prefix +:+ line) else ret tt) >>
      printMatching prefix patt hostArr'
  end.

(** [func main()] from [flag.Parse()] on: [getter] holds the values of
    the flags and [args] is [flag.Args()].  The result is the exit
    status. *)
Definition main (getter : HostGetter) (args : list string) : M Z :=
  let* getter :=
    match args with
    | patt :: _ =>
        let getter := setPattern getter patt in
        log_Printf "requesting pattern %s, for prefix %s" >> ret getter
    | [] => ret getter
    end in
  let* (hosts, err) := getHosts getter in
  match err with
  | Some _ => emit (Fatal "failed to download hosts") >> ret 1
  | None =>
      match HostPattern getter with
      | Some patt =>
          printMatching (HostPrefix getter) patt (strings.Split hosts LF) >>
          ret 0
      | None => Println hosts >> ret 0
      end
  end.

End Program.

(** ** Observing a run *)

Definition result_of {A} (m : M A) (w : World) : A := fst (m w).
Definition world_after {A} (m : M A) (w : World) : World := snd (m w).

(** The events a run adds to the trace. *)
Definition emitted {A} (m : M A) (w : World) : list event :=
  skipn (List.length (trace w)) (trace (world_after m w)).

(** The events of the fetcher, and those of persistence. *)
Definition is_fetch (e : event) : bool :=
  match e with
  | NewRequest _ | Do _ _ _ | ReadAll => true
  | _ => false
  end.

Definition is_write (e : event) : bool :=
  match e with
  | WriteFile _ _ => true
  | _ => false
  end.

Definition is_persist (e : event) : bool :=
  match e with
  | MkdirAll _ | WriteFile _ _ => true
  | _ => false
  end.

(** A cache hit in the words of the specification: the cache file exists,
    the instant of the call is not after its modification time plus the
    cache duration, and it can be read. *)
Definition cache_hit (cacheLoc : string) (self : HostGetter) (w : World) : Prop :=
  exists f, files w !! cacheLoc = Some f
            /\ now w <= modTime f + CacheDuration self
            /\ readable f = true.

(** ** Sample inputs *)

(** A JSON string literal of a text without special characters. *)
Definition quoted (s : string) : string :=
  String json.dquote s +:+ String json.dquote "".

Definition join_plain (dir file : string) : string := dir +:+ "/" +:+ file.

Definition sample_getter : HostGetter :=
  mkHostGetter "https://foreman.example/hosts" "/home/u/.gethosts" "u" "secret"
    "hostslist.txt" None "" 3600.

Definition sample_path : string := "/home/u/.gethosts/hostslist.txt".

(** A world at instant [t] whose network answers [answer], where
    directories can be made and files written. *)
Definition sample_world (fs : gmap string File) (t : Z) (answer : HttpOutcome)
  : World :=
  mkWorld fs t (fun _ _ _ => answer) (fun _ => None) (fun _ _ => Written) "" [].

Definition three_hosts : string :=
  "alpha" +:+ LF +:+ "beta" +:+ LF +:+ "alphabet" +:+ LF.

(** The payload [{"Results":[{"Name":1}]}]. *)
Definition payload_name_number : string :=
  "{" +:+ quoted "Results" +:+ ":[{" +:+ quoted "Name" +:+ ":1}]}".

(** The payloads [{"Results":[{"Name":"alpha"},{"Name":"beta"}]}] and
    [{"Results":[{"Name":"a\nb"}]}], whose one name holds a line feed. *)
Definition payload_two_hosts : string :=
  "{" +:+ quoted "Results" +:+ ":[{" +:+ quoted "Name" +:+ ":" +:+ quoted "alpha"
  +:+ "},{" +:+ quoted "Name" +:+ ":" +:+ quoted "beta" +:+ "}]}".

Definition payload_newline : string :=
  "{" +:+ quoted "Results" +:+ ":[{" +:+ quoted "Name" +:+ ":" +:+ quoted "a\nb"
  +:+ "}]}".

(** The payloads [{}], [{"Other":1}], [{"Results":null}] and
    [{"Results":[]}]. *)
Definition payload_empty_object : string := "{}".
Definition payload_other : string := "{" +:+ quoted "Other" +:+ ":1}".
Definition payload_null : string := "{" +:+ quoted "Results" +:+ ":null}".
Definition payload_empty_list : string := "{" +:+ quoted "Results" +:+ ":[]}".

(** The payload [{"Results":[{"Name":"a"}], cut before its end. *)
Definition payload_truncated : string :=
  "{" +:+ quoted "Results" +:+ ":[{" +:+ quoted "Name" +:+ ":" +:+ quoted "a"
  +:+ "}".

(** The payload [{"results":[{"Name":"a"}]}]. *)
Definition payload_lower_case : string :=
  "{" +:+ quoted "results" +:+ ":[{" +:+ quoted "Name" +:+ ":" +:+ quoted "a"
  +:+ "}]}".

(** Worlds of the sample getter, whose cache lasts 3600: the cache file
    was written at instant 1000 and the call is made at the last fresh
    instant, or just after it; the cache file cannot be read; there is no
    cache file. *)
Definition world_at_boundary : World :=
  sample_world {[ sample_path := mkFile 1000 three_hosts true ]} 4600
    (Body payload_name_number).

Definition world_past_boundary : World :=
  sample_world {[ sample_path := mkFile 1000 three_hosts true ]} 4601
    (Body payload_name_number).

Definition world_unreadable : World :=
  sample_world {[ sample_path := mkFile 1000 three_hosts false ]} 4600
    (ConnectionFailed (ExternalError "connection refused")).

Definition world_empty_cache : World :=
  sample_world ∅ 4600 (ConnectionFailed (ExternalError "connection refused")).

(** Worlds without cache file where the text arrives, but the cache
    directory cannot be made, or the write fails. *)
Definition world_no_directory : World :=
  mkWorld ∅ 4600 (fun _ _ _ => Body payload_empty_object)
    (fun _ => Some (ExternalError "mkdir: permission denied"))
    (fun _ _ => Written) "" [].

Definition world_write_fails : World :=
  mkWorld ∅ 4600 (fun _ _ _ => Body payload_empty_object) (fun _ => None)
    (fun _ _ => WriteFailed (ExternalError "write: no space left on device") None)
    "" [].

(** ** Further observations *)

(** The calls that open a connection. *)
Definition is_connect (e : event) : bool :=
  match e with
  | Do _ _ _ => true
  | _ => false
  end.

(** How many connections a trace holds. *)
Definition connections (evs : list event) : nat :=
  List.length (List.filter is_connect evs).

(** The getter [main] works with: the flags, and the pattern argument
    taken in when there is one. *)
Definition getter_of (getter : HostGetter) (args : list string) : HostGetter :=
  match args with
  | patt :: _ => setPattern getter patt
  | [] => getter
  end.

(** The lines [main] prints for a pattern: those of [hostArr] that start
    with [patt], each behind [prefix]. *)
Definition matching_lines (prefix patt : string) (hostArr : list string)
  : list string :=
  map (fun line => prefix +:+ line)
      (List.filter (fun line => strings.HasPrefix line patt) hostArr).

(** A getter like the sample one, with a negative cache duration. *)
Definition impatient_getter : HostGetter :=
  mkHostGetter "https://foreman.example/hosts" "/home/u/.gethosts" "u" "secret"
    "hostslist.txt" None "" (-1).

(** The world a first run leaves, at a later instant and with the
    network down. *)
Definition world_later (self : HostGetter) (w : World) (t : Z) : World :=
  sample_world (files (world_after (getHosts join_plain self) w)) t
    (ConnectionFailed (ExternalError "connection refused")).

(** Members none of which selects the struct field [field]. *)
Definition unknown_to (field : string) (members : list (string * json.value))
  : Prop :=
  Forall (fun m => json.field_matches field (fst m) = false) members.

(** A host record of a payload: an object with the member [Name]
    between other members. *)
Definition host_record (r : list (string * json.value) * string
                            * list (string * json.value)) : json.value :=
  json.Object (fst (fst r) ++ ("Name", json.Str (snd (fst r))) :: snd r).

(** The payload
    [{"total":2,"Results":[{"Id":7,"Name":"alpha"},{"Name":"beta","Ip":null}]}]. *)
Definition payload_with_other_fields : string :=
  "{" +:+ quoted "total" +:+ ":2," +:+ quoted "Results" +:+ ":[{"
  +:+ quoted "Id" +:+ ":7," +:+ quoted "Name" +:+ ":" +:+ quoted "alpha" +:+ "},{"
  +:+ quoted "Name" +:+ ":" +:+ quoted "beta" +:+ "," +:+ quoted "Ip"
  +:+ ":null}]}".

(** The scanner over a piece of the input: the state it is left in and
    the tokens completed. *)
Fixpoint lex_run (st : json.lex_state) (data : string)
  : option (json.lex_state * list json.token) :=
  match data with
  | EmptyString => Some (st, [])
  | String c data' =>
      match json.lex_step st c with
      | Some (st', toks) =>
          match lex_run st' data' with
          | Some (st'', toks') => Some (st'', toks ++ toks')
          | None => None
          end
      | None => None
      end
  end.

(** A text of printable ASCII bytes without double quote and backslash. *)
Definition plain_byte (c : ascii) : bool :=
  let b := json.byte_of c in
  (32 <=? b) && (b <? 128) && negb (b =? 34) && negb (b =? 92).

Fixpoint plain (s : string) : bool :=
  match s with
  | EmptyString => true
  | String c s' => plain_byte c && plain s'
  end.

(** The payload of a list of host names as the server words it:
    [{"Results":[{"Name":"n1"},{"Name":"n2"},...]}]. *)
Definition record_text (name : string) : string :=
  "{" +:+ quoted "Name" +:+ ":" +:+ quoted name +:+ "}".

Fixpoint more_records (names : list string) : string :=
  match names with
  | [] => EmptyString
  | name :: names' => "," +:+ record_text name +:+ more_records names'
  end.

Definition payload_of (names : list string) : string :=
  "{" +:+ quoted "Results" +:+ ":["
  +:+ match names with
      | [] => EmptyString
      | name :: names' => record_text name +:+ more_records names'
      end
  +:+ "]}".

(** The tokens and the value of a host record with the one member
    [Name]. *)
Definition record_tokens (name : string) : list json.token :=
  [json.TLBrace; json.TString "Name"; json.TColon; json.TString name; json.TRBrace].

Definition record_value (name : string) : json.value :=
  json.Object [("Name", json.Str name)].

(** The stack of the scanner inside the array of the member [Results]. *)
Definition in_results (elems : list json.value) : list json.frame :=
  [json.InArray elems; json.InObject [] (Some "Results")].

(** * Properties *)

(** ** Running the monad *)

Lemma skipn_app_length {A} (l l' : list A) :
  skipn (List.length l) (l ++ l') = l'.
Proof. induction l as [|a l IH]; simpl; auto. Qed.

(** Unfolds the program down to the world it returns. *)
Ltac run :=
  unfold emitted; unfold result_of, world_after, getHosts, refresh,
    downloadParseHosts, downloadHosts, parse, os_Stat, ioutil_ReadFile,
    time_Now, os_MkdirAll, ioutil_WriteFile, store, set_files, log_Printf,
    log_Print, emit, with_events, get, bind, ret; simpl.

(** The trace a run leaves, with the appended events flattened. *)
Ltac flatten_trace :=
  repeat rewrite <- app_assoc; simpl; try rewrite skipn_app_length.

Lemma with_events_app (w : World) (evs evs' : list event) :
  with_events (with_events w evs) evs' = with_events w (evs ++ evs').
Proof. unfold with_events; simpl. now rewrite <- app_assoc. Qed.

Lemma emitted_with_events {A} (m : M A) (w : World) (a : A) (evs : list event) :
  m w = (a, with_events w evs) -> emitted m w = evs.
Proof.
  intros H. unfold emitted, world_after. rewrite H. simpl.
  apply skipn_app_length.
Qed.

Section Pipeline.

Variable self : HostGetter.

(** The pipeline consults the world for the answer of the network only,
    and only adds events to it. *)
Lemma pipeline_run (w0 w : World) :
  http w0 = http w ->
  downloadParseHosts self w =
    (result_of (downloadParseHosts self) w0,
     with_events w (emitted (downloadParseHosts self) w0)).
Proof.
  intros Hnet. run. rewrite Hnet.
  destruct (http w _ _ _) as [e|e|e|data]; simpl; flatten_trace; try reflexivity.
  destruct (json.Unmarshal data _) as [hosts [e|]]; simpl; flatten_trace;
    reflexivity.
Qed.

(** The pipeline starts by building the request and never touches the
    cache. *)
Lemma pipeline_events (w : World) :
  exists evs,
    emitted (downloadParseHosts self) w = NewRequest (DownloadLocation self) :: evs
    /\ forallb (fun e => negb (is_persist e)) evs = true.
Proof.
  run.
  destruct (http w _ _ _) as [e|e|e|data]; simpl; flatten_trace;
    try (eexists; split; [reflexivity|reflexivity]).
  destruct (json.Unmarshal data _) as [hosts [e|]]; simpl; flatten_trace;
    eexists; split; reflexivity.
Qed.

(** On an error the pipeline returns no text. *)
Lemma pipeline_error_no_text (w : World) (rt : string) (e : error) :
  result_of (downloadParseHosts self) w = (rt, Some e) -> rt = "".
Proof.
  run.
  destruct (http w _ _ _) as [e'|e'|e'|data]; simpl; try congruence.
  destruct (json.Unmarshal data _) as [hosts [e'|]]; simpl; congruence.
Qed.

End Pipeline.

Lemma emitted_trace {A} (m : M A) (w : World) (evs : list event) :
  trace (world_after m w) = trace w ++ evs -> emitted m w = evs.
Proof. intros H. unfold emitted. rewrite H. apply skipn_app_length. Qed.

Section Refresh.

Variable self : HostGetter.
Variable cacheLoc : string.

Let pipeline := downloadParseHosts self.

(** A failed pipeline: the error is handed on, nothing is saved. *)
Lemma refresh_error (w : World) (rt : string) (e : error) :
  result_of pipeline w = (rt, Some e) ->
  refresh self cacheLoc w =
    ("", Some e,
     with_events w (emitted pipeline w ++ [Log "could not get hosts"])).
Proof.
  intros Hres. assert (rt = "") as -> by (eapply pipeline_error_no_text; eauto).
  unfold refresh, bind. rewrite (pipeline_run self w w eq_refl).
  fold pipeline. rewrite Hres. unfold log_Printf, emit, ret.
  now rewrite with_events_app.
Qed.

(** The text is there but the cache directory cannot be made. *)
Lemma refresh_mkdir_failed (w : World) (rt : string) (e : error) :
  result_of pipeline w = (rt, None) ->
  mkdirAll w (CacheLocation self) = Some e ->
  refresh self cacheLoc w =
    (rt, None,
     with_events w
       (emitted pipeline w ++
        [Log "downloaded and parsed - trying to save to cache";
         MkdirAll (CacheLocation self);
         Log "could not create cache dir %s (%v)"])).
Proof.
  intros Hres Hdir.
  unfold refresh, bind. rewrite (pipeline_run self w w eq_refl).
  fold pipeline. rewrite Hres.
  unfold os_MkdirAll, log_Printf, emit, get, bind, ret. simpl.
  rewrite Hdir. rewrite !with_events_app. simpl. reflexivity.
Qed.

(** The text is there, the directory too, but the write fails. *)
Lemma refresh_write_failed (w : World) (rt : string) (e : error)
    (residue : option string) :
  result_of pipeline w = (rt, None) ->
  mkdirAll w (CacheLocation self) = None ->
  writeFile w cacheLoc rt = WriteFailed e residue ->
  result_of (refresh self cacheLoc) w = (rt, None)
  /\ emitted (refresh self cacheLoc) w =
       emitted pipeline w ++
       [Log "downloaded and parsed - trying to save to cache";
        MkdirAll (CacheLocation self);
        WriteFile cacheLoc rt;
        Log "downloaded and parsed ok, could not save to cache %v"].
Proof.
  intros Hres Hdir Hwrite.
  assert (refresh self cacheLoc w =
          let w1 := with_events w
                      (emitted pipeline w ++
                       [Log "downloaded and parsed - trying to save to cache";
                        MkdirAll (CacheLocation self);
                        WriteFile cacheLoc rt]) in
          let (_, w2) := match residue with
                         | Some d => store cacheLoc d w1
                         | None => (tt, w1)
                         end in
          (rt, None,
           with_events w2
             [Log "downloaded and parsed ok, could not save to cache %v"]))
    as Hrun.
  { unfold refresh, bind. rewrite (pipeline_run self w w eq_refl).
    fold pipeline. rewrite Hres.
    unfold os_MkdirAll, ioutil_WriteFile, log_Printf, emit, get, bind, ret.
    simpl. rewrite Hdir. simpl. rewrite Hwrite. rewrite !with_events_app.
    simpl. destruct residue; reflexivity. }
  split.
  - unfold result_of. rewrite Hrun. now destruct residue.
  - apply emitted_trace. unfold world_after. rewrite Hrun.
    destruct residue; simpl; now repeat rewrite <- app_assoc.
Qed.

(** The text is there and saved. *)
Lemma refresh_saved (w : World) (rt : string) :
  result_of pipeline w = (rt, None) ->
  mkdirAll w (CacheLocation self) = None ->
  writeFile w cacheLoc rt = Written ->
  refresh self cacheLoc w =
    (rt, None,
     mkWorld
       (<[cacheLoc := mkFile (now w) rt
                        (match files w !! cacheLoc with
                         | Some f => readable f
                         | None => true
                         end)]> (files w))
       (now w) (http w) (mkdirAll w) (writeFile w) (stdout w)
       (trace w ++ emitted pipeline w ++
        [Log "downloaded and parsed - trying to save to cache";
         MkdirAll (CacheLocation self);
         WriteFile cacheLoc rt;
         Log "saved hosts in cache"])).
Proof.
  intros Hres Hdir Hwrite.
  unfold refresh, bind. rewrite (pipeline_run self w w eq_refl).
  fold pipeline. rewrite Hres.
  unfold os_MkdirAll, ioutil_WriteFile, store, set_files, log_Printf, emit,
    get, bind, ret.
  simpl. rewrite Hdir. simpl. rewrite Hwrite. simpl.
  unfold with_events. simpl. repeat rewrite <- app_assoc. reflexivity.
Qed.

End Refresh.

Section Pipeline_facts.

Variable self : HostGetter.

Let pipeline := downloadParseHosts self.

(** Result and events of the pipeline are those of any world with the
    same network. *)
Lemma pipeline_indep (w0 w : World) :
  http w0 = http w ->
  result_of pipeline w = result_of pipeline w0
  /\ emitted pipeline w = emitted pipeline w0.
Proof.
  intros Hnet. pose proof (pipeline_run self w0 w Hnet) as Hrun.
  split.
  - unfold result_of at 1. subst pipeline. now rewrite Hrun.
  - eapply emitted_with_events. exact Hrun.
Qed.

(** Whatever happens to the cache, the refresh returns what the
    pipeline returned, its events follow those of the pipeline, and it
    prints nothing. *)
Lemma refresh_run (cacheLoc : string) (w : World) :
  exists post,
    result_of (refresh self cacheLoc) w = result_of pipeline w
    /\ trace (world_after (refresh self cacheLoc) w)
       = trace w ++ emitted pipeline w ++ post
    /\ stdout (world_after (refresh self cacheLoc) w) = stdout w.
Proof.
  destruct (result_of pipeline w) as [rt [e|]] eqn:Hres.
  - pose proof (refresh_error self cacheLoc w rt e Hres) as Hrun.
    pose proof (pipeline_error_no_text self w rt e Hres) as ->.
    eexists. unfold result_of, world_after. rewrite Hrun. simpl.
    split; [reflexivity|]. split; reflexivity.
  - destruct (mkdirAll w (CacheLocation self)) as [e|] eqn:Hdir.
    + pose proof (refresh_mkdir_failed self cacheLoc w rt e Hres Hdir) as Hrun.
      eexists. unfold result_of, world_after. rewrite Hrun. simpl.
      split; [reflexivity|]. split; reflexivity.
    + destruct (writeFile w cacheLoc rt) as [|e residue] eqn:Hwrite.
      * pose proof (refresh_saved self cacheLoc w rt Hres Hdir Hwrite) as Hrun.
        eexists. unfold result_of, world_after. rewrite Hrun. simpl.
        split; [reflexivity|]. split; reflexivity.
      * eexists. split; [|split].
        -- apply (refresh_write_failed self cacheLoc w rt e residue); auto.
        -- unfold refresh, bind. unfold world_after.
           rewrite (pipeline_run self w w eq_refl).
           fold pipeline. rewrite Hres.
           unfold os_MkdirAll, ioutil_WriteFile, store, set_files, log_Printf,
             emit, get, bind, ret.
           simpl. rewrite Hdir. simpl. rewrite Hwrite.
           destruct residue; simpl; repeat rewrite <- app_assoc; reflexivity.
        -- unfold refresh, bind. unfold world_after.
           rewrite (pipeline_run self w w eq_refl).
           fold pipeline. rewrite Hres.
           unfold os_MkdirAll, ioutil_WriteFile, store, set_files, log_Printf,
             emit, get, bind, ret.
           simpl. rewrite Hdir. simpl. rewrite Hwrite.
           destruct residue; reflexivity.
Qed.

(** The request of the fetcher is among the events of the pipeline. *)
Lemma pipeline_requests (w : World) :
  In (NewRequest (DownloadLocation self)) (emitted pipeline w).
Proof.
  unfold pipeline. destruct (pipeline_events self w) as [evs [-> _]]. now left.
Qed.

End Pipeline_facts.

Section Miss.

Variable Join : string -> string -> string.
Variable self : HostGetter.

Let cacheLoc := Join (CacheLocation self) (CacheFileName self).
Let pipeline := downloadParseHosts self.

(** A fresh readable cache file is returned as it is; the only calls
    are the [Stat] and the [ReadFile]. *)
Lemma getHosts_hit (w : World) (f : File) :
  files w !! cacheLoc = Some f ->
  now w <= modTime f + CacheDuration self ->
  readable f = true ->
  getHosts Join self w =
    (content f, None,
     with_events w
       [Stat cacheLoc; Log "found file in cache"; ReadFile cacheLoc]).
Proof.
  intros Hf Hfresh Hread. subst cacheLoc.
  unfold getHosts, os_Stat, ioutil_ReadFile, time_Now, log_Printf, emit, get,
    bind, ret.
  simpl. rewrite Hf. simpl. unfold After, Add.
  destruct (Z.ltb_spec (modTime f + CacheDuration self) (now w)); [lia|].
  simpl. rewrite Hf, Hread. now rewrite !with_events_app.
Qed.

(** No cache file: refresh. *)
Lemma getHosts_absent (w : World) :
  files w !! cacheLoc = None ->
  getHosts Join self w =
    refresh self cacheLoc
      (with_events w
         [Stat cacheLoc; Log "no file in cache, downloading %s (%v)"]).
Proof.
  intros Hf. subst cacheLoc.
  unfold getHosts, os_Stat, log_Printf, emit, get, bind, ret.
  simpl. rewrite Hf. now rewrite !with_events_app.
Qed.

(** A stale cache file is not read: refresh. *)
Lemma getHosts_stale (w : World) (f : File) :
  files w !! cacheLoc = Some f ->
  modTime f + CacheDuration self < now w ->
  getHosts Join self w = refresh self cacheLoc (with_events w [Stat cacheLoc]).
Proof.
  intros Hf Hstale. subst cacheLoc.
  unfold getHosts, os_Stat, time_Now, emit, get, bind, ret. simpl.
  rewrite Hf. simpl. unfold After, Add.
  destruct (Z.ltb_spec (modTime f + CacheDuration self) (now w)); [|lia].
  reflexivity.
Qed.

(** A fresh cache file that cannot be read: refresh. *)
Lemma getHosts_unreadable (w : World) (f : File) :
  files w !! cacheLoc = Some f ->
  now w <= modTime f + CacheDuration self ->
  readable f = false ->
  getHosts Join self w =
    refresh self cacheLoc
      (with_events w
         [Stat cacheLoc; Log "found file in cache"; ReadFile cacheLoc;
          Log "corrupt file in cache, downloading %s (%v)"]).
Proof.
  intros Hf Hfresh Hread. subst cacheLoc.
  unfold getHosts, os_Stat, ioutil_ReadFile, time_Now, log_Printf, emit, get,
    bind, ret.
  simpl. rewrite Hf. simpl. unfold After, Add.
  destruct (Z.ltb_spec (modTime f + CacheDuration self) (now w)); [lia|].
  simpl. rewrite Hf, Hread. now rewrite !with_events_app.
Qed.

(** Without a hit the run is that of the refresh, after events that
    belong neither to the fetcher nor to persistence. *)
Lemma getHosts_miss (w : World) :
  ~ cache_hit cacheLoc self w ->
  exists pre,
    getHosts Join self w = refresh self cacheLoc (with_events w pre)
    /\ forallb (fun e => negb (is_persist e) && negb (is_fetch e)) pre = true.
Proof.
  intros Hmiss.
  destruct (files w !! cacheLoc) as [f|] eqn:Hf.
  - destruct (Z_lt_le_dec (modTime f + CacheDuration self) (now w)).
    + eexists. split; [eapply getHosts_stale; eauto|reflexivity].
    + destruct (readable f) eqn:Hread.
      * exfalso. apply Hmiss. exists f. auto.
      * eexists. split; [eapply getHosts_unreadable; eauto|reflexivity].
  - eexists. split; [eapply getHosts_absent; eauto|reflexivity].
Qed.

(** What a run that goes through the refresh returns and emits. *)
Lemma getHosts_through_refresh (w : World) (pre : list event) :
  getHosts Join self w = refresh self cacheLoc (with_events w pre) ->
  result_of (getHosts Join self) w = result_of pipeline w
  /\ stdout (world_after (getHosts Join self) w) = stdout w
  /\ exists post,
       emitted (getHosts Join self) w = pre ++ emitted pipeline w ++ post.
Proof.
  intros Hrun.
  destruct (refresh_run self cacheLoc (with_events w pre))
    as [post [Hres [Htrace Hout]]].
  destruct (pipeline_indep self w (with_events w pre) eq_refl) as [Hr He].
  fold pipeline in Hr, He, Hres, Htrace.
  split; [|split].
  - unfold result_of at 1. rewrite Hrun. fold (result_of (refresh self cacheLoc) (with_events w pre)).
    now rewrite Hres, Hr.
  - unfold world_after. rewrite Hrun. exact Hout.
  - exists post. apply emitted_trace. unfold world_after. rewrite Hrun.
    fold (world_after (refresh self cacheLoc) (with_events w pre)).
    rewrite Htrace, He. simpl. now rewrite <- app_assoc.
Qed.

End Miss.

(** ** The cache-or-refresh decision *)

(** C1.  With a cache file of modification time [T] and a cache duration
    [D]: a call at an instant up to and including [T + D] that can read
    the file returns its content and makes no call of the fetcher; a call
    after [T + D] returns what the download/parse pipeline returns, and
    the fetcher's request is made. *)
Theorem C1_freshness_boundary
    (Join : string -> string -> string) (self : HostGetter) (w : World) (f : File) :
  files w !! Join (CacheLocation self) (CacheFileName self) = Some f ->
  (now w <= modTime f + CacheDuration self -> readable f = true ->
     result_of (getHosts Join self) w = (content f, None)
     /\ forallb (fun e => negb (is_fetch e)) (emitted (getHosts Join self) w) = true)
  /\ (modTime f + CacheDuration self < now w ->
      result_of (getHosts Join self) w = result_of (downloadParseHosts self) w
      /\ In (NewRequest (DownloadLocation self)) (emitted (getHosts Join self) w)).
Proof.
  intros Hf. split.
  - intros Hfresh Hread.
    pose proof (getHosts_hit Join self w f Hf Hfresh Hread) as Hrun.
    split.
    + unfold result_of. now rewrite Hrun.
    + rewrite (emitted_with_events _ _ _ _ Hrun). reflexivity.
  - intros Hstale.
    pose proof (getHosts_stale Join self w f Hf Hstale) as Hrun.
    destruct (getHosts_through_refresh Join self w _ Hrun) as [Hres [_ [post Hev]]].
    split; [exact Hres|].
    rewrite Hev. apply in_or_app. right. apply in_or_app. left.
    apply pipeline_requests.
Qed.

Lemma C1_freshness_boundary_witness :
  result_of (getHosts join_plain sample_getter) world_at_boundary
  = (three_hosts, None)
  /\ In (NewRequest (DownloadLocation sample_getter))
        (emitted (getHosts join_plain sample_getter) world_past_boundary).
Proof.
  split.
  - destruct (C1_freshness_boundary join_plain sample_getter world_at_boundary
                (mkFile 1000 three_hosts true)) as [Hhit _].
    + vm_compute. reflexivity.
    + apply Hhit.
      * vm_compute. discriminate.
      * reflexivity.
  - destruct (C1_freshness_boundary join_plain sample_getter world_past_boundary
                (mkFile 1000 three_hosts true)) as [_ Hmiss].
    + vm_compute. reflexivity.
    + apply Hmiss. vm_compute. reflexivity.
Defined.



(** C3.  When no cache hit occurs and the pipeline succeeds, [getHosts]
    returns the fresh text and no error, whatever becomes of the cache:
    if the directory cannot be made, no write of the file is attempted;
    if the directory is there and the write fails, the write was
    attempted and its failure is logged. *)
Theorem C3_cache_write_tolerance
    (Join : string -> string -> string) (self : HostGetter) (w : World)
    (rt : string) :
  ~ cache_hit (Join (CacheLocation self) (CacheFileName self)) self w ->
  result_of (downloadParseHosts self) w = (rt, None) ->
  result_of (getHosts Join self) w = (rt, None)
  /\ (mkdirAll w (CacheLocation self) <> None ->
      forallb (fun ev => negb (is_write ev)) (emitted (getHosts Join self) w) = true)
  /\ (forall e residue,
        mkdirAll w (CacheLocation self) = None ->
        writeFile w (Join (CacheLocation self) (CacheFileName self)) rt
          = WriteFailed e residue ->
        In (WriteFile (Join (CacheLocation self) (CacheFileName self)) rt)
           (emitted (getHosts Join self) w)
        /\ In (Log "downloaded and parsed ok, could not save to cache %v")
              (emitted (getHosts Join self) w)).
Proof.
  intros Hmiss Hres.
  destruct (getHosts_miss Join self w Hmiss) as [pre [Hrun Hpre]].
  destruct (getHosts_through_refresh Join self w pre Hrun) as [Hresult _].
  destruct (pipeline_indep self w (with_events w pre) eq_refl) as [Hr He].
  rewrite Hres in Hr.
  split; [now rewrite Hresult|]. split.
  - intros Hdir.
    destruct (mkdirAll w (CacheLocation self)) as [e|] eqn:Hmk; [|congruence].
    pose proof (refresh_mkdir_failed self
                  (Join (CacheLocation self) (CacheFileName self))
                  (with_events w pre) rt e Hr Hmk) as Hrefresh.
    rewrite He, with_events_app in Hrefresh. rewrite Hrefresh in Hrun.
    rewrite (emitted_with_events _ _ _ _ Hrun).
    destruct (pipeline_events self w) as [evs [-> Hevs]].
    rewrite !forallb_app. simpl. rewrite andb_true_r.
    apply andb_true_intro. split.
    + clear -Hpre. induction pre as [|ev pre IH]; simpl in *; [reflexivity|].
      apply andb_prop in Hpre as [Hev Hpre].
      apply andb_prop in Hev as [Hev _].
      rewrite IH by assumption. now destruct ev.
    + clear -Hevs. induction evs as [|ev evs IH]; simpl in *; [reflexivity|].
      apply andb_prop in Hevs as [Hev Hevs].
      rewrite IH by assumption. now destruct ev.
  - intros e residue Hmk Hwrite.
    destruct (refresh_write_failed self
                (Join (CacheLocation self) (CacheFileName self))
                (with_events w pre) rt e residue Hr Hmk Hwrite) as [_ Hev].
    assert (exists post,
               trace (world_after (getHosts Join self) w)
               = trace w ++ pre ++ emitted (downloadParseHosts self) w ++ post
               /\ In (WriteFile (Join (CacheLocation self) (CacheFileName self)) rt) post
               /\ In (Log "downloaded and parsed ok, could not save to cache %v") post)
      as [post [Htrace [Hin1 Hin2]]].
    { eexists. split; [|split].
      - unfold world_after. rewrite Hrun.
        fold (world_after (refresh self (Join (CacheLocation self) (CacheFileName self)))
                (with_events w pre)).
        destruct (refresh_run self (Join (CacheLocation self) (CacheFileName self))
                    (with_events w pre)) as [post' [_ [Htr _]]].
        rewrite (emitted_trace _ _ _ Htr) in Hev.
        apply app_inv_head in Hev. subst post'.
        rewrite Htr, He. simpl. rewrite <- app_assoc. reflexivity.
      - simpl. auto.
      - simpl. auto. }
    rewrite (emitted_trace _ _ _ Htrace).
    split; apply in_or_app; right; apply in_or_app; right; assumption.
Qed.

Lemma C3_cache_write_tolerance_witness :
  result_of (getHosts join_plain sample_getter) world_no_directory
  = (EmptyString, None)
  /\ forallb (fun ev => negb (is_write ev))
       (emitted (getHosts join_plain sample_getter) world_no_directory) = true
  /\ result_of (getHosts join_plain sample_getter) world_write_fails
     = (EmptyString, None)
  /\ In (Log "downloaded and parsed ok, could not save to cache %v")
        (emitted (getHosts join_plain sample_getter) world_write_fails).
Proof.
  destruct (C3_cache_write_tolerance join_plain sample_getter world_no_directory
              EmptyString) as [Hres [Hdir _]].
  - intros [f [Hf _]]. vm_compute in Hf. discriminate.
  - reflexivity.
  - split; [exact Hres|]. split; [apply Hdir; discriminate|].
    destruct (C3_cache_write_tolerance join_plain sample_getter world_write_fails
                EmptyString) as [Hres' [_ Hwrite]].
    + intros [f [Hf _]]. vm_compute in Hf. discriminate.
    + reflexivity.
    + split; [exact Hres'|].
      apply (Hwrite (ExternalError "write: no space left on device") None);
        reflexivity.
Defined.

(** C4.  A cache file that is there and fresh but cannot be read makes a
    miss: the read is attempted, then the fetcher's request is made, and
    [getHosts] returns what the pipeline returns, not the read error. *)
Theorem C4_unreadable_is_miss
    (Join : string -> string -> string) (self : HostGetter) (w : World) (f : File) :
  files w !! Join (CacheLocation self) (CacheFileName self) = Some f ->
  now w <= modTime f + CacheDuration self ->
  readable f = false ->
  result_of (getHosts Join self) w = result_of (downloadParseHosts self) w
  /\ exists post,
       emitted (getHosts Join self) w =
         [Stat (Join (CacheLocation self) (CacheFileName self));
          Log "found file in cache";
          ReadFile (Join (CacheLocation self) (CacheFileName self));
          Log "corrupt file in cache, downloading %s (%v)";
          NewRequest (DownloadLocation self)] ++ post.
Proof.
  intros Hf Hfresh Hread.
  pose proof (getHosts_unreadable Join self w f Hf Hfresh Hread) as Hrun.
  destruct (getHosts_through_refresh Join self w _ Hrun) as [Hres [_ [post Hev]]].
  split; [exact Hres|].
  destruct (pipeline_events self w) as [evs [Hpipe _]].
  rewrite Hpipe in Hev. exists (evs ++ post). rewrite Hev. reflexivity.
Qed.

Lemma C4_unreadable_is_miss_witness :
  result_of (getHosts join_plain sample_getter) world_unreadable
  = result_of (downloadParseHosts sample_getter) world_unreadable
  /\ exists post,
       emitted (getHosts join_plain sample_getter) world_unreadable =
         [Stat (join_plain (CacheLocation sample_getter) (CacheFileName sample_getter));
          Log "found file in cache";
          ReadFile (join_plain (CacheLocation sample_getter) (CacheFileName sample_getter));
          Log "corrupt file in cache, downloading %s (%v)";
          NewRequest (DownloadLocation sample_getter)] ++ post.
Proof.
  apply (C4_unreadable_is_miss join_plain sample_getter world_unreadable
           (mkFile 1000 three_hosts false)).
  - vm_compute. reflexivity.
  - vm_compute. discriminate.
  - reflexivity.
Defined.

(** ** Formatting and splitting *)

Lemma append_cons (x : ascii) (a b : string) :
  String x a +:+ b = String x (a +:+ b).
Proof. reflexivity. Qed.

Lemma append_assoc (a b c : string) : (a +:+ b) +:+ c = a +:+ (b +:+ c).
Proof.
  induction a as [|x a IH]; [reflexivity|].
  rewrite !append_cons. now rewrite IH.
Qed.

Lemma append_nil_r (a : string) : a +:+ "" = a.
Proof.
  induction a as [|x a IH]; [reflexivity|].
  rewrite append_cons. now rewrite IH.
Qed.

Lemma formatHosts_from (rs : list Result) (buffer : string) :
  fold_left (fun buffer host => buffer +:+ (Name host +:+ LF)) rs buffer
  = buffer +:+ lines (map Name rs).
Proof.
  revert buffer. induction rs as [|r rs IH]; intros buffer; simpl.
  - now rewrite append_nil_r.
  - rewrite IH. now rewrite !append_assoc.
Qed.

Lemma formatHosts_lines (hosts : Response) :
  formatHosts hosts = lines (map Name (Results hosts)).
Proof. unfold formatHosts. now rewrite formatHosts_from. Qed.

Lemma names_one_per_line_lines (names : list string) :
  names_one_per_line names = lines names.
Proof.
  destruct names as [|n names]; [reflexivity|].
  unfold names_one_per_line. revert n.
  induction names as [|m names IH]; intros n.
  - simpl. now rewrite append_nil_r.
  - change (String.concat LF (n :: m :: names))
      with (n +:+ LF +:+ String.concat LF (m :: names)).
    rewrite !append_assoc. rewrite IH. reflexivity.
Qed.

(** C5.  When the body decodes without error, the text of the pipeline
    joins the names of the decoded records in the order of the array, one
    per line, with a line feed after the last one; no record gives the
    empty text. *)
Theorem C5_format_one_per_line
    (self : HostGetter) (w : World) (data : string) (hosts : Response) :
  http w (DownloadLocation self) (User self) (Password self) = Body data ->
  json.Unmarshal data (mkResponse []) = (hosts, None) ->
  result_of (downloadParseHosts self) w
  = (names_one_per_line (map Name (Results hosts)), None)
  /\ formatHosts hosts = names_one_per_line (map Name (Results hosts))
  /\ formatHosts (mkResponse []) = "".
Proof.
  intros Hnet Hjson.
  assert (formatHosts hosts = names_one_per_line (map Name (Results hosts))) as Hfmt
    by now rewrite formatHosts_lines, names_one_per_line_lines.
  split; [|split; [exact Hfmt|reflexivity]].
  unfold result_of, downloadParseHosts, downloadHosts, parse, log_Printf,
    log_Print, emit,
    get, bind, ret.
  simpl. rewrite Hnet. simpl. rewrite Hjson. simpl. now rewrite Hfmt.
Qed.

Lemma C5_format_one_per_line_witness :
  result_of (downloadParseHosts sample_getter)
    (sample_world ∅ 0 (Body payload_two_hosts))
  = ("alpha" +:+ LF +:+ "beta" +:+ LF, None).
Proof.
  apply (C5_format_one_per_line sample_getter
           (sample_world ∅ 0 (Body payload_two_hosts)) payload_two_hosts
           (mkResponse [mkResult "alpha"; mkResult "beta"])).
  - reflexivity.
  - vm_compute. reflexivity.
Defined.

(** A text without line feed has no occurrence of ["\n"]. *)
Lemma Index_LF_cons (c : ascii) (s : string) :
  strings.Index (String c s) LF = None ->
  Ascii.eqb c lf = false /\ strings.Index s LF = None.
Proof.
  unfold LF. fold lf. simpl.
  destruct (Ascii.eqb c lf); [destruct s; discriminate|].
  destruct (strings.Index s (String lf "")); [discriminate|auto].
Qed.

(** Splitting stops a line at its line feed. *)
Lemma split_line (name rest : string) :
  strings.Index name LF = None ->
  strings.split_from LF O (name +:+ LF +:+ rest)
  = name :: strings.split_from LF O rest.
Proof.
  induction name as [|c name IH]; intros Hno.
  - change ("" +:+ LF +:+ rest) with (String lf rest).
    change LF with (String lf ""). simpl.
    destruct rest; reflexivity.
  - apply Index_LF_cons in Hno as [Hc Hno].
    rewrite append_cons. specialize (IH Hno).
    change LF with (String lf "") in *. simpl. rewrite Hc.
    rewrite IH. reflexivity.
Qed.

Lemma Split_lines (names : list string) :
  Forall (fun name => strings.Index name LF = None) names ->
  strings.Split (lines names) LF = names ++ [""].
Proof.
  unfold strings.Split. unfold LF at 2. fold lf. fold LF.
  induction 1 as [|name names Hname _ IH]; [reflexivity|].
  simpl lines. rewrite (split_line _ _ Hname). now rewrite IH.
Qed.

(** C6, as amended.  For names none of which holds a line feed, the
    formatted text split on the line feed gives back the names, followed
    by the one empty piece behind the last line feed. *)
Theorem C6_split_format (names : list string) :
  Forall (fun name => strings.Index name LF = None) names ->
  strings.Split (formatHosts (mkResponse (map mkResult names))) LF
  = names ++ [""].
Proof.
  intros Hnames. rewrite formatHosts_lines. simpl Results.
  rewrite map_map. simpl. rewrite map_id. now apply Split_lines.
Qed.

Lemma C6_split_format_witness :
  strings.Split (formatHosts (mkResponse (map mkResult ["alpha"; "beta"]))) LF
  = ["alpha"; "beta"] ++ [""].
Proof.
  apply (C6_split_format ["alpha"; "beta"]).
  repeat constructor.
Defined.

(** C6 as stated fails: a name with a line feed, as the payload above
    decodes to, comes back as two pieces. *)
Lemma C6_split_format_counterexample :
  json.Unmarshal payload_newline (mkResponse [])
  = (mkResponse [mkResult ("a" +:+ LF +:+ "b")], None)
  /\ strings.Split (formatHosts (mkResponse (map mkResult ["a" +:+ LF +:+ "b"]))) LF
     = ["a"; "b"; ""]
  /\ strings.Split (formatHosts (mkResponse (map mkResult ["a" +:+ LF +:+ "b"]))) LF
     <> ["a" +:+ LF +:+ "b"] ++ [""].
Proof.
  split; [vm_compute; reflexivity|].
  split; [vm_compute; reflexivity|].
  vm_compute. discriminate.
Qed.

(** ** The pattern argument and the output *)

Lemma HasPrefix_nil (s : string) : strings.HasPrefix s "" = true.
Proof. now destruct s. Qed.

(** The first ["@"] of a text is the one behind a part without ["@"]. *)
Lemma Index_at (pre post : string) :
  strings.Index pre "@" = None ->
  strings.Index (pre +:+ "@" +:+ post) "@" = Some (String.length pre).
Proof.
  induction pre as [|c pre IH]; intros Hno.
  - change ("" +:+ "@" +:+ post) with (String "@" post). simpl.
    now rewrite HasPrefix_nil.
  - rewrite append_cons. simpl in *.
    destruct (Ascii.eqb c "@").
    + now rewrite HasPrefix_nil in Hno.
    + destruct (strings.Index pre "@"); [discriminate|].
      now rewrite IH.
Qed.

Lemma substring_whole (s : string) : substring 0 (String.length s) s = s.
Proof. induction s as [|c s IH]; simpl; [reflexivity|now rewrite IH]. Qed.

Lemma substring_head (pre rest : string) (c : ascii) :
  substring 0 (String.length pre + 1) (pre +:+ String c rest) = pre +:+ String c "".
Proof.
  induction pre as [|x pre IH].
  - simpl. now destruct rest.
  - rewrite !append_cons. simpl. now rewrite IH.
Qed.

Lemma substring_tail (pre rest : string) (c : ascii) :
  substring (String.length pre + 1)
    (String.length (pre +:+ String c rest) - (String.length pre + 1))
    (pre +:+ String c rest) = rest.
Proof.
  induction pre as [|x pre IH].
  - simpl. rewrite Nat.sub_0_r. apply substring_whole.
  - rewrite !append_cons. simpl. exact IH.
Qed.

Section Output.

Variable Join : string -> string -> string.

(** [getHosts] prints nothing. *)
Lemma getHosts_stdout (self : HostGetter) (w : World) :
  stdout (world_after (getHosts Join self) w) = stdout w.
Proof.
  destruct (files w !! Join (CacheLocation self) (CacheFileName self))
    as [f|] eqn:Hf.
  - destruct (Z_lt_le_dec (modTime f + CacheDuration self) (now w)).
    + eapply getHosts_through_refresh, getHosts_stale; eauto.
    + destruct (readable f) eqn:Hread.
      * unfold world_after. now rewrite (getHosts_hit Join self w f).
      * eapply getHosts_through_refresh, getHosts_unreadable; eauto.
  - eapply getHosts_through_refresh, getHosts_absent; eauto.
Qed.

(** With the pattern argument ["P@alpha"] and the three hosts in a
    fresh cache, [main] prints the two hosts that start with [alpha],
    each behind ["P@"]. *)
Lemma main_P_at_alpha (getter : HostGetter) (w : World) (f : File) :
  files w !! Join (CacheLocation getter) (CacheFileName getter) = Some f ->
  now w <= modTime f + CacheDuration getter ->
  readable f = true ->
  content f = three_hosts ->
  stdout (world_after (main Join getter ["P@alpha"]) w)
  = stdout w +:+ ("P@alpha" +:+ LF +:+ "P@alphabet" +:+ LF).
Proof.
  intros Hf Hfresh Hread Htext.
  unfold world_after, main, bind, log_Printf, emit, ret.
  pose proof (getHosts_hit Join (setPattern getter "P@alpha")
                (with_events w [Log "requesting pattern %s, for prefix %s"])
                f Hf Hfresh Hread) as Hrun.
  rewrite Hrun, Htext. vm_compute stdout.
  now rewrite !append_assoc.
Qed.

End Output.

(** C7, as amended.  In a pattern argument with an ["@"], the display
    prefix is everything up to and including the first ["@"], and the
    match pattern everything behind it; for the hosts alpha, beta and
    alphabet and the argument ["P@alpha"], the lines printed are
    ["P@alpha"] and ["P@alphabet"], in that order. *)
Theorem C7_pattern_prefix
    (Join : string -> string -> string) (getter : HostGetter) (w : World)
    (f : File) (pre post : string) :
  strings.Index pre "@" = None ->
  files w !! Join (CacheLocation getter) (CacheFileName getter) = Some f ->
  now w <= modTime f + CacheDuration getter ->
  readable f = true ->
  content f = three_hosts ->
  HostPrefix (setPattern getter (pre +:+ "@" +:+ post)) = pre +:+ "@"
  /\ HostPattern (setPattern getter (pre +:+ "@" +:+ post)) = Some post
  /\ stdout (world_after (main Join getter ["P@alpha"]) w)
     = stdout w +:+ ("P@alpha" +:+ LF +:+ "P@alphabet" +:+ LF).
Proof.
  intros Hpre Hf Hfresh Hread Htext.
  split; [|split].
  - unfold setPattern. rewrite (Index_at pre post Hpre). simpl HostPrefix.
    apply (substring_head pre post "@").
  - unfold setPattern. rewrite (Index_at pre post Hpre). simpl HostPattern.
    f_equal. apply (substring_tail pre post "@").
  - now apply (main_P_at_alpha Join getter w f).
Qed.

Lemma C7_pattern_prefix_witness :
  HostPrefix (setPattern sample_getter ("P" +:+ "@" +:+ "alpha")) = "P" +:+ "@"
  /\ HostPattern (setPattern sample_getter ("P" +:+ "@" +:+ "alpha")) = Some "alpha"
  /\ stdout (world_after (main join_plain sample_getter ["P@alpha"]) world_at_boundary)
     = stdout world_at_boundary +:+ ("P@alpha" +:+ LF +:+ "P@alphabet" +:+ LF).
Proof.
  apply (C7_pattern_prefix join_plain sample_getter world_at_boundary
           (mkFile 1000 three_hosts true) "P" "alpha").
  - reflexivity.
  - vm_compute. reflexivity.
  - vm_compute. discriminate.
  - reflexivity.
  - reflexivity.
Defined.

(** C7 as stated fails: the ["@"] belongs to the display prefix, so the
    lines are not ["Palpha"] and ["Palphabet"]. *)
Lemma C7_pattern_prefix_counterexample :
  result_of (getHosts join_plain (setPattern sample_getter "P@alpha")) world_at_boundary
  = (three_hosts, None)
  /\ HostPrefix (setPattern sample_getter "P@alpha") <> "P"
  /\ stdout (world_after (main join_plain sample_getter ["P@alpha"]) world_at_boundary)
     <> "Palpha" +:+ LF +:+ "Palphabet" +:+ LF.
Proof.
  split; [vm_compute; reflexivity|].
  split; vm_compute; discriminate.
Qed.

(** C9, as amended.  Without a pattern argument, the text [getHosts]
    returned is written to standard output followed by one line feed. *)
Theorem C9_output_without_pattern
    (Join : string -> string -> string) (getter : HostGetter) (w : World)
    (hosts : string) :
  HostPattern getter = None ->
  result_of (getHosts Join getter) w = (hosts, None) ->
  result_of (main Join getter []) w = 0
  /\ stdout (world_after (main Join getter []) w) = stdout w +:+ hosts +:+ LF.
Proof.
  intros Hpatt Hres.
  pose proof (getHosts_stdout Join getter w) as Hout.
  unfold result_of, world_after in *. unfold main, bind, ret. simpl.
  destruct (getHosts Join getter w) as [[rt err] w']. simpl in *.
  injection Hres as -> ->. rewrite Hpatt. unfold Println, bind. simpl.
  now rewrite Hout.
Qed.

Lemma C9_output_without_pattern_witness :
  result_of (main join_plain sample_getter []) world_at_boundary = 0
  /\ stdout (world_after (main join_plain sample_getter []) world_at_boundary)
     = stdout world_at_boundary +:+ three_hosts +:+ LF.
Proof.
  apply (C9_output_without_pattern join_plain sample_getter world_at_boundary
           three_hosts).
  - reflexivity.
  - vm_compute. reflexivity.
Defined.

(** C9 as stated fails: what is printed is one byte longer than the
    text. *)
Lemma C9_output_without_pattern_counterexample :
  result_of (getHosts join_plain sample_getter) world_at_boundary
  = (three_hosts, None)
  /\ stdout (world_after (main join_plain sample_getter []) world_at_boundary)
     <> three_hosts.
Proof.
  split; [vm_compute; reflexivity|].
  vm_compute. discriminate.
Qed.

(** ** Decoding the payload *)

Section Decoding.

Variable self : HostGetter.

(** What the pipeline returns once the body has arrived. *)
Lemma pipeline_on_body (w : World) (data : string) :
  http w (DownloadLocation self) (User self) (Password self) = Body data ->
  result_of (downloadParseHosts self) w
  = match json.Unmarshal data (mkResponse []) with
    | (_, Some e) => ("", Some e)
    | (hosts, None) => (formatHosts hosts, None)
    end.
Proof.
  intros Hnet.
  unfold result_of, downloadParseHosts, downloadHosts, parse, log_Printf,
    log_Print, emit,
    get, bind, ret.
  simpl. rewrite Hnet. simpl.
  now destruct (json.Unmarshal data _) as [hosts [e|]].
Qed.

End Decoding.

(** Members none of which reaches the field [Results] with anything but
    [null] leave the slice nil. *)
Lemma decode_without_Results (members : list (string * json.value)) :
  (forall k v, In (k, v) members ->
               json.field_matches "Results" k = true -> v = json.Null) ->
  json.decode_Response (json.Object members) (mkResponse [])
  = (mkResponse [], None).
Proof.
  intros Hnull. unfold json.decode_Response. simpl Results.
  assert (fold_left
            (fun (st : list Result * list Result * option error)
                 (m : string * json.value) =>
               if json.field_matches "Results" (fst m)
               then json.decode_Results (snd m) (fst (fst st)) (snd (fst st)) (snd st)
               else st)
            members ([], [], None) = ([], [], None)) as ->; [|reflexivity].
  induction members as [|[k v] members IH]; [reflexivity|].
  simpl fold_left. simpl fst. simpl snd.
  destruct (json.field_matches "Results" k) eqn:Hk.
  - rewrite (Hnull k v (or_introl eq_refl) Hk). simpl json.decode_Results.
    apply IH. intros k' v' Hin. apply Hnull. now right.
  - apply IH. intros k' v' Hin. apply Hnull. now right.
Qed.

(** The decoder on the sample payloads: a well-formed host list, a
    truncated one, and the three shapes without hosts. *)
Example Unmarshal_two_hosts :
  json.Unmarshal payload_two_hosts (mkResponse [])
  = (mkResponse [mkResult "alpha"; mkResult "beta"], None).
Proof. vm_compute. reflexivity. Qed.

Example Unmarshal_truncated :
  json.Unmarshal payload_truncated (mkResponse [])
  = (mkResponse [], Some SyntaxError).
Proof. vm_compute. reflexivity. Qed.

Example Unmarshal_without_hosts :
  json.Unmarshal payload_empty_object (mkResponse []) = (mkResponse [], None)
  /\ json.Unmarshal payload_null (mkResponse []) = (mkResponse [], None)
  /\ json.Unmarshal payload_empty_list (mkResponse []) = (mkResponse [], None).
Proof. repeat split; vm_compute; reflexivity. Qed.

(** C8.  The payload [{"Results":[{"Name":1}]}] is answered by a type
    error; and whenever the decoding of a body reports an error, the
    pipeline returns that error and no text. *)
Theorem C8_type_mismatch
    (self : HostGetter) (w : World) (data : string) (hosts : Response) (e : error) :
  http w (DownloadLocation self) (User self) (Password self) = Body data ->
  json.Unmarshal data (mkResponse []) = (hosts, Some e) ->
  result_of (downloadParseHosts self) w = ("", Some e)
  /\ snd (result_of (parse self data) w) = Some e
  /\ snd (json.Unmarshal payload_name_number (mkResponse []))
     = Some (UnmarshalTypeError "number" "string").
Proof.
  intros Hnet Hjson. split; [|split].
  - rewrite (pipeline_on_body self w data Hnet). now rewrite Hjson.
  - unfold result_of, parse, log_Print, emit, bind, ret. now rewrite Hjson.
  - vm_compute. reflexivity.
Qed.

Lemma C8_type_mismatch_witness :
  result_of (downloadParseHosts sample_getter) world_past_boundary
  = ("", Some (UnmarshalTypeError "number" "string"))
  /\ snd (result_of (parse sample_getter payload_name_number) world_past_boundary)
     = Some (UnmarshalTypeError "number" "string")
  /\ snd (json.Unmarshal payload_name_number (mkResponse []))
     = Some (UnmarshalTypeError "number" "string").
Proof.
  apply (C8_type_mismatch sample_getter world_past_boundary payload_name_number
           (mkResponse [mkResult ""])).
  - reflexivity.
  - vm_compute. reflexivity.
Defined.

(** C10, as amended.  For a payload that is a JSON object none of whose
    keys matches the field name [Results], exactly or under case
    folding, with a value other than [null], parsing succeeds as for an
    empty host list and the pipeline gives the empty text; when
    [getHosts] has no cache hit and the directory can be made and the
    file written, the cache file then holds the empty text. *)
Theorem C10_no_results_is_empty
    (Join : string -> string -> string) (self : HostGetter) (w : World)
    (data : string) (members : list (string * json.value)) :
  json.parse_value data = Some (json.Object members) ->
  (forall k v, In (k, v) members ->
               json.field_matches "Results" k = true -> v = json.Null) ->
  http w (DownloadLocation self) (User self) (Password self) = Body data ->
  ~ cache_hit (Join (CacheLocation self) (CacheFileName self)) self w ->
  mkdirAll w (CacheLocation self) = None ->
  writeFile w (Join (CacheLocation self) (CacheFileName self)) "" = Written ->
  json.Unmarshal data (mkResponse []) = (mkResponse [], None)
  /\ json.Unmarshal data (mkResponse [])
     = json.Unmarshal payload_empty_list (mkResponse [])
  /\ result_of (downloadParseHosts self) w = ("", None)
  /\ result_of (getHosts Join self) w = ("", None)
  /\ exists f,
       files (world_after (getHosts Join self) w)
         !! Join (CacheLocation self) (CacheFileName self) = Some f
       /\ content f = "".
Proof.
  intros Hparse Hnull Hnet Hmiss Hdir Hwrite.
  assert (json.Unmarshal data (mkResponse []) = (mkResponse [], None)) as Hjson.
  { unfold json.Unmarshal. rewrite Hparse. now apply decode_without_Results. }
  assert (result_of (downloadParseHosts self) w = ("", None)) as Hres.
  { rewrite (pipeline_on_body self w data Hnet). now rewrite Hjson. }
  split; [exact Hjson|]. split; [rewrite Hjson; vm_compute; reflexivity|].
  split; [exact Hres|].
  destruct (getHosts_miss Join self w Hmiss) as [pre [Hrun _]].
  destruct (pipeline_indep self w (with_events w pre) eq_refl) as [Hr _].
  rewrite Hres in Hr.
  pose proof (refresh_saved self (Join (CacheLocation self) (CacheFileName self))
                (with_events w pre) "" Hr Hdir Hwrite) as Hsaved.
  rewrite Hsaved in Hrun. split.
  - unfold result_of. now rewrite Hrun.
  - unfold world_after. rewrite Hrun. simpl files.
    eexists. split; [apply lookup_insert_eq|reflexivity].
Qed.

Lemma C10_no_results_is_empty_witness :
  json.Unmarshal payload_other (mkResponse []) = (mkResponse [], None)
  /\ json.Unmarshal payload_other (mkResponse [])
     = json.Unmarshal payload_empty_list (mkResponse [])
  /\ result_of (downloadParseHosts sample_getter)
       (sample_world ∅ 0 (Body payload_other)) = ("", None)
  /\ result_of (getHosts join_plain sample_getter)
       (sample_world ∅ 0 (Body payload_other)) = ("", None)
  /\ exists f,
       files (world_after (getHosts join_plain sample_getter)
                (sample_world ∅ 0 (Body payload_other)))
         !! join_plain (CacheLocation sample_getter) (CacheFileName sample_getter)
       = Some f
       /\ content f = "".
Proof.
  apply (C10_no_results_is_empty join_plain sample_getter
           (sample_world ∅ 0 (Body payload_other)) payload_other
           [("Other", json.Number)]).
  - vm_compute. reflexivity.
  - intros k v [Heq|[]] Hk. injection Heq as <- <-. vm_compute in Hk. discriminate.
  - reflexivity.
  - intros [f [Hf _]]. vm_compute in Hf. discriminate.
  - reflexivity.
  - reflexivity.
Defined.

(** C10 as stated fails: a payload without the key ["Results"] but with
    the key ["results"] fills the host list. *)
Lemma C10_no_results_is_empty_counterexample :
  json.parse_value payload_lower_case
  = Some (json.Object
            [("results", json.Array [json.Object [("Name", json.Str "a")]])])
  /\ (forall k v,
        In (k, v) [("results", json.Array [json.Object [("Name", json.Str "a")]])] ->
        k = "Results" -> v = json.Null)
  /\ result_of (downloadParseHosts sample_getter)
       (sample_world ∅ 0 (Body payload_lower_case)) = ("a" +:+ LF, None)
  /\ result_of (downloadParseHosts sample_getter)
       (sample_world ∅ 0 (Body payload_lower_case)) <> ("", None).
Proof.
  split; [vm_compute; reflexivity|].
  split.
  - intros k v [Heq|[]] Hk. injection Heq as <- <-. discriminate.
  - split; [vm_compute; reflexivity|vm_compute; discriminate].
Qed.

(** * Further properties of the program *)

(** ** Every run of [getHosts] *)

Section Runs.

Variable Join : string -> string -> string.
Variable self : HostGetter.

Let cacheLoc := Join (CacheLocation self) (CacheFileName self).
Let pipeline := downloadParseHosts self.

(** What the refresh does behind the pipeline: no further call of the
    fetcher; a directory is made only at the cache location; a file is
    written only at the cache path, only with the text the pipeline
    returned without error; every other path keeps its entry, and the
    files change only when a write is attempted. *)
Lemma refresh_post (w : World) :
  exists post,
    trace (world_after (refresh self cacheLoc) w)
    = trace w ++ emitted pipeline w ++ post
    /\ forallb (fun e => negb (is_fetch e)) post = true
    /\ (forall p d, In (WriteFile p d) post ->
                    p = cacheLoc /\ result_of pipeline w = (d, None))
    /\ (forall p, In (MkdirAll p) post -> p = CacheLocation self)
    /\ (forall p, p <> cacheLoc ->
                  files (world_after (refresh self cacheLoc) w) !! p = files w !! p)
    /\ (forallb (fun e => negb (is_write e)) post = true ->
        files (world_after (refresh self cacheLoc) w) = files w).
Proof.
  destruct (result_of pipeline w) as [rt [e|]] eqn:Hres.
  - pose proof (refresh_error self cacheLoc w rt e Hres) as Hrun.
    eexists. unfold world_after. rewrite Hrun. simpl.
    split; [reflexivity|]. split; [reflexivity|].
    split; [intros p d [Hin|[]]; discriminate|].
    split; [intros p [Hin|[]]; discriminate|].
    split; [reflexivity|reflexivity].
  - destruct (mkdirAll w (CacheLocation self)) as [e|] eqn:Hdir.
    + pose proof (refresh_mkdir_failed self cacheLoc w rt e Hres Hdir) as Hrun.
      eexists. unfold world_after. rewrite Hrun. simpl.
      split; [reflexivity|]. split; [reflexivity|].
      split; [intros p d [Hin|[Hin|[Hin|[]]]]; discriminate|].
      split; [intros p [Hin|[Hin|[Hin|[]]]]; try discriminate; now injection Hin|].
      split; [reflexivity|reflexivity].
    + assert (exists fs' l,
                 refresh self cacheLoc w
                 = (rt, None,
                    mkWorld fs' (now w) (http w) (mkdirAll w) (writeFile w) (stdout w)
                      (trace w ++ emitted pipeline w ++
                       [Log "downloaded and parsed - trying to save to cache";
                        MkdirAll (CacheLocation self);
                        WriteFile cacheLoc rt; Log l]))
                 /\ forall p, p <> cacheLoc -> fs' !! p = files w !! p)
        as [fs' [l [Hrun Hfs]]].
      { unfold refresh, bind. rewrite (pipeline_run self w w eq_refl).
        fold pipeline. rewrite Hres.
        unfold os_MkdirAll, ioutil_WriteFile, store, set_files, log_Printf,
          emit, get, bind, ret, with_events.
        simpl. rewrite Hdir. simpl.
        destruct (writeFile w cacheLoc rt) as [|e [residue|]]; simpl;
          repeat rewrite <- app_assoc; simpl;
          eexists; eexists; (split; [reflexivity|]);
          intros p Hp; try reflexivity;
          now rewrite lookup_insert_ne by congruence. }
      eexists. unfold world_after. rewrite Hrun. simpl.
      split; [reflexivity|]. split; [reflexivity|].
      split.
      { intros p d [Hin|[Hin|[Hin|[Hin|[]]]]]; try discriminate.
        injection Hin as <- <-. auto. }
      split.
      { intros p [Hin|[Hin|[Hin|[Hin|[]]]]]; try discriminate. now injection Hin. }
      split; [exact Hfs|]. simpl. discriminate.
Qed.

(** The events of the pipeline: the request is built first; a connection
    is opened at most once, and not at all when the request cannot be
    built; nothing of the cache is touched. *)
Lemma pipeline_shape (w : World) :
  exists evs,
    emitted pipeline w = NewRequest (DownloadLocation self) :: evs
    /\ forallb (fun e => negb (is_persist e)) evs = true
    /\ connections evs
       = match http w (DownloadLocation self) (User self) (Password self) with
         | RequestRejected _ => 0%nat
         | _ => 1%nat
         end.
Proof.
  subst pipeline. run.
  destruct (http w _ _ _) as [e|e|e|data]; simpl; flatten_trace;
    try (eexists; split; [reflexivity|split; reflexivity]).
  destruct (json.Unmarshal data _) as [hosts [e|]]; simpl; flatten_trace;
    eexists; (split; [reflexivity|split; reflexivity]).
Qed.

(** Every run is a hit or goes through the refresh. *)
Lemma getHosts_run (w : World) :
  (exists f,
      files w !! cacheLoc = Some f
      /\ now w <= modTime f + CacheDuration self
      /\ readable f = true
      /\ getHosts Join self w
         = (content f, None,
            with_events w
              [Stat cacheLoc; Log "found file in cache"; ReadFile cacheLoc]))
  \/ (~ cache_hit cacheLoc self w
      /\ exists pre,
           getHosts Join self w = refresh self cacheLoc (with_events w pre)
           /\ forallb (fun e => negb (is_persist e) && negb (is_fetch e)) pre = true).
Proof.
  destruct (files w !! cacheLoc) as [f|] eqn:Hf.
  - destruct (Z_lt_le_dec (modTime f + CacheDuration self) (now w)) as [Hstale|Hfresh].
    + right. split.
      * intros [f' [Hf' [Hfresh' _]]]. rewrite Hf in Hf'. injection Hf' as <-. lia.
      * eexists. split; [eapply getHosts_stale; eauto|reflexivity].
    + destruct (readable f) eqn:Hread.
      * left. exists f. split; [reflexivity|]. split; [exact Hfresh|].
        split; [exact Hread|]. now apply getHosts_hit.
      * right. split.
        -- intros [f' [Hf' [_ Hread']]]. rewrite Hf in Hf'. injection Hf' as <-.
           congruence.
        -- eexists. split; [eapply getHosts_unreadable; eauto|reflexivity].
  - right. split.
    + intros [f' [Hf' _]]. rewrite Hf in Hf'. discriminate.
    + eexists. split; [eapply getHosts_absent; eauto|reflexivity].
Qed.

End Runs.




Section Miss_shape.

Variable Join : string -> string -> string.
Variable self : HostGetter.

Let cacheLoc := Join (CacheLocation self) (CacheFileName self).

(** The shape of a run that goes through the refresh. *)
Lemma getHosts_miss_shape (w : World) (pre : list event) :
  getHosts Join self w = refresh self cacheLoc (with_events w pre) ->
  exists evs post,
    emitted (getHosts Join self) w
    = pre ++ (NewRequest (DownloadLocation self) :: evs) ++ post
    /\ forallb (fun e => negb (is_persist e)) evs = true
    /\ connections evs
       = match http w (DownloadLocation self) (User self) (Password self) with
         | RequestRejected _ => 0%nat
         | _ => 1%nat
         end
    /\ forallb (fun e => negb (is_fetch e)) post = true
    /\ (forall p d, In (WriteFile p d) post ->
                    p = cacheLoc /\ result_of (getHosts Join self) w = (d, None))
    /\ (forall p, In (MkdirAll p) post -> p = CacheLocation self)
    /\ (forall p, p <> cacheLoc ->
                  files (world_after (getHosts Join self) w) !! p = files w !! p)
    /\ (forallb (fun e => negb (is_write e)) post = true ->
        files (world_after (getHosts Join self) w) = files w).
Proof.
  intros Hrun.
  destruct (refresh_post Join self (with_events w pre))
    as [post [Htrace [Hfetch [Hwrite [Hmkdir [Hother Hsame]]]]]].
  fold cacheLoc in Htrace, Hwrite, Hother, Hsame.
  destruct (pipeline_indep self w (with_events w pre) eq_refl) as [Hr He].
  destruct (pipeline_shape self w) as [evs [Hevs [Hpersist Hconn]]].
  destruct (getHosts_through_refresh Join self w pre Hrun) as [Hres _].
  rewrite He, Hevs in Htrace. rewrite Hr in Hwrite. rewrite <- Hres in Hwrite.
  exists evs, post.
  split.
  { apply emitted_trace. unfold world_after. rewrite Hrun.
    fold (world_after (refresh self cacheLoc) (with_events w pre)).
    rewrite Htrace. simpl. now rewrite <- app_assoc. }
  split; [exact Hpersist|]. split; [exact Hconn|]. split; [exact Hfetch|].
  split; [exact Hwrite|]. split; [exact Hmkdir|].
  unfold world_after. rewrite Hrun.
  fold (world_after (refresh self cacheLoc) (with_events w pre)).
  split; [exact Hother|exact Hsame].
Qed.

End Miss_shape.



(** X2.  [getHosts] touches no file but the cache file: every other path
    keeps its entry; and the files change only in a run that attempts the
    write, so a cache hit or a failed download leaves them all, the cache
    file and its modification time included, as they were. *)
Theorem getHosts_touches_only_cache_file
    (Join : string -> string -> string) (self : HostGetter) (w : World) :
  (forall p, p <> Join (CacheLocation self) (CacheFileName self) ->
             files (world_after (getHosts Join self) w) !! p = files w !! p)
  /\ (forallb (fun e => negb (is_write e)) (emitted (getHosts Join self) w) = true ->
      files (world_after (getHosts Join self) w) = files w).
Proof.
  destruct (getHosts_run Join self w)
    as [[f [Hf [Hfresh [Hread Hrun]]]]|[Hmiss [pre [Hrun Hpre]]]].
  - unfold world_after. rewrite Hrun. simpl. auto.
  - destruct (getHosts_miss_shape Join self w pre Hrun)
      as [evs [post [Hev [_ [_ [_ [_ [_ [Hother Hsame]]]]]]]]].
    split; [exact Hother|].
    rewrite Hev, !forallb_app. intros H.
    apply andb_prop in H as [_ H]. apply andb_prop in H as [_ H]. auto.
Qed.

Lemma getHosts_touches_only_cache_file_witness :
  files (world_after (getHosts join_plain sample_getter)
           (sample_world {[ "/etc/hosts" := mkFile 7 "localhost" true ]} 0
              (Body payload_two_hosts)))
    !! "/etc/hosts" = Some (mkFile 7 "localhost" true)
  /\ files (world_after (getHosts join_plain sample_getter) world_at_boundary)
     = files world_at_boundary.
Proof.
  split.
  - destruct (getHosts_touches_only_cache_file join_plain sample_getter
                (sample_world {[ "/etc/hosts" := mkFile 7 "localhost" true ]} 0
                   (Body payload_two_hosts))) as [Hother _].
    rewrite Hother; [vm_compute; reflexivity|]. vm_compute. discriminate.
  - apply (getHosts_touches_only_cache_file join_plain sample_getter world_at_boundary).
    vm_compute. reflexivity.
Defined.

(** A write is attempted only at the cache path, with the text returned,
    in a run that returns no error. *)
Lemma getHosts_writes_what_it_returns_aux
    (Join : string -> string -> string) (self : HostGetter) (w : World)
    (p d : string) :
  In (WriteFile p d) (emitted (getHosts Join self) w) ->
  p = Join (CacheLocation self) (CacheFileName self)
  /\ result_of (getHosts Join self) w = (d, None).
Proof.
  destruct (getHosts_run Join self w)
    as [[f [Hf [Hfresh [Hread Hrun]]]]|[Hmiss [pre [Hrun Hpre]]]].
  - rewrite (emitted_with_events _ _ _ _ Hrun).
    intros [H|[H|[H|[]]]]; discriminate.
  - destruct (getHosts_miss_shape Join self w pre Hrun)
      as [evs [post [Hev [Hevs [_ [_ [Hwrite _]]]]]]].
    rewrite Hev. intros H. apply Hwrite.
    apply in_app_or in H as [H|H].
    + exfalso. rewrite forallb_forall in Hpre. specialize (Hpre _ H). discriminate.
    + apply in_app_or in H as [[H|H]|H]; [discriminate| |exact H].
      exfalso. rewrite forallb_forall in Hevs. specialize (Hevs _ H). discriminate.
Qed.

(** X3.  What is saved is what is returned: every write [getHosts]
    attempts is at the cache path, with the very text it returns, and
    only in a run that returns no error; a directory is made only at the
    cache location. *)
Theorem getHosts_writes_what_it_returns
    (Join : string -> string -> string) (self : HostGetter) (w : World) :
  (forall p d, In (WriteFile p d) (emitted (getHosts Join self) w) ->
               p = Join (CacheLocation self) (CacheFileName self)
               /\ result_of (getHosts Join self) w = (d, None))
  /\ (forall p, In (MkdirAll p) (emitted (getHosts Join self) w) ->
                p = CacheLocation self).
Proof.
  destruct (getHosts_run Join self w)
    as [[f [Hf [Hfresh [Hread Hrun]]]]|[Hmiss [pre [Hrun Hpre]]]].
  - rewrite (emitted_with_events _ _ _ _ Hrun). split.
    + intros p d [H|[H|[H|[]]]]; discriminate.
    + intros p [H|[H|[H|[]]]]; discriminate.
  - destruct (getHosts_miss_shape Join self w pre Hrun)
      as [evs [post [Hev [Hevs [_ [_ [Hwrite [Hmkdir _]]]]]]]].
    assert (forall e, is_persist e = true -> In e (emitted (getHosts Join self) w) ->
                      In e post) as Hin.
    { intros e He. rewrite Hev. intros H.
      apply in_app_or in H as [H|H].
      - exfalso. rewrite forallb_forall in Hpre. specialize (Hpre e H).
        apply andb_prop in Hpre as [Hp _]. now rewrite He in Hp.
      - apply in_app_or in H as [[H|H]|H]; [subst e; discriminate| |exact H].
        exfalso. rewrite forallb_forall in Hevs. specialize (Hevs e H).
        now rewrite He in Hevs. }
    split.
    + intros p d H. apply Hwrite. now apply Hin.
    + intros p H. apply Hmkdir. now apply Hin.
Qed.

Lemma getHosts_writes_what_it_returns_witness :
  sample_path = join_plain (CacheLocation sample_getter) (CacheFileName sample_getter)
  /\ result_of (getHosts join_plain sample_getter)
       (sample_world ∅ 0 (Body payload_two_hosts))
     = ("alpha" +:+ LF +:+ "beta" +:+ LF, None).
Proof.
  apply (proj1 (getHosts_writes_what_it_returns join_plain sample_getter
                  (sample_world ∅ 0 (Body payload_two_hosts)))
           sample_path ("alpha" +:+ LF +:+ "beta" +:+ LF)).
  vm_compute. auto 12.
Defined.

(** ** The cache across two runs *)


(** X5.  A negative cache duration switches the cache off: the file a
    run has just saved is stale for every later call, which makes the
    request again. *)
Theorem getHosts_negative_duration_refetches
    (Join : string -> string -> string) (self : HostGetter) (w w2 : World)
    (rt : string) :
  CacheDuration self < 0 ->
  ~ cache_hit (Join (CacheLocation self) (CacheFileName self)) self w ->
  result_of (downloadParseHosts self) w = (rt, None) ->
  mkdirAll w (CacheLocation self) = None ->
  writeFile w (Join (CacheLocation self) (CacheFileName self)) rt = Written ->
  files w2 = files (world_after (getHosts Join self) w) ->
  now w <= now w2 ->
  result_of (getHosts Join self) w2 = result_of (downloadParseHosts self) w2
  /\ In (NewRequest (DownloadLocation self)) (emitted (getHosts Join self) w2).
Proof.
  intros Hneg Hmiss Hres Hdir Hwrite Hfiles Hnow.
  destruct (getHosts_miss Join self w Hmiss) as [pre [Hrun _]].
  destruct (pipeline_indep self w (with_events w pre) eq_refl) as [Hr _].
  rewrite Hres in Hr.
  pose proof (refresh_saved self (Join (CacheLocation self) (CacheFileName self))
                (with_events w pre) rt Hr Hdir Hwrite) as Hsaved.
  rewrite Hsaved in Hrun. unfold world_after in Hfiles. rewrite Hrun in Hfiles.
  simpl in Hfiles.
  assert (exists r, files w2 !! Join (CacheLocation self) (CacheFileName self)
                    = Some (mkFile (now w) rt r)) as [r Hf2].
  { eexists. rewrite Hfiles. apply lookup_insert_eq. }
  assert (modTime (mkFile (now w) rt r) + CacheDuration self < now w2) as Hstale
    by (simpl; lia).
  pose proof (getHosts_stale Join self w2 _ Hf2 Hstale) as Hrun2.
  destruct (getHosts_through_refresh Join self w2 _ Hrun2) as [Hres2 [_ [post Hev]]].
  split; [exact Hres2|].
  rewrite Hev. apply in_or_app. right. apply in_or_app. left.
  apply pipeline_requests.
Qed.


Lemma getHosts_negative_duration_refetches_witness :
  result_of (getHosts join_plain impatient_getter)
    (world_later impatient_getter (sample_world ∅ 1000 (Body payload_two_hosts)) 1000)
  = result_of (downloadParseHosts impatient_getter)
      (world_later impatient_getter
         (sample_world ∅ 1000 (Body payload_two_hosts)) 1000)
  /\ In (NewRequest (DownloadLocation impatient_getter))
        (emitted (getHosts join_plain impatient_getter)
           (world_later impatient_getter
              (sample_world ∅ 1000 (Body payload_two_hosts)) 1000)).
Proof.
  apply (getHosts_negative_duration_refetches join_plain impatient_getter
           (sample_world ∅ 1000 (Body payload_two_hosts)) _
           ("alpha" +:+ LF +:+ "beta" +:+ LF)).
  - reflexivity.
  - intros [f [Hf _]]. vm_compute in Hf. discriminate.
  - vm_compute. reflexivity.
  - reflexivity.
  - reflexivity.
  - reflexivity.
  - vm_compute. discriminate.
Defined.

(** ** [main]: the pattern argument and what is printed *)

(** [setPattern] leaves the configuration of the flags alone. *)
Lemma setPattern_config (getter : HostGetter) (patt : string) :
  DownloadLocation (setPattern getter patt) = DownloadLocation getter
  /\ CacheLocation (setPattern getter patt) = CacheLocation getter
  /\ User (setPattern getter patt) = User getter
  /\ Password (setPattern getter patt) = Password getter
  /\ CacheFileName (setPattern getter patt) = CacheFileName getter
  /\ CacheDuration (setPattern getter patt) = CacheDuration getter.
Proof.
  unfold setPattern. destruct (strings.Index patt "@"); simpl; repeat split.
Qed.

(** A text cut at [n] bytes and put together again. *)
Lemma substring_split (n : nat) (s : string) :
  substring 0 n s +:+ substring n (String.length s - n) s = s.
Proof.
  revert n. induction s as [|c s IH]; intros [|n]; simpl; try reflexivity.
  - now rewrite substring_whole.
  - rewrite append_cons. now rewrite IH.
Qed.

(** The loop over the lines prints the matching ones and does nothing
    else. *)
Lemma printMatching_run (prefix patt : string) (hostArr : list string) (w : World) :
  printMatching prefix patt hostArr w
  = (tt, mkWorld (files w) (now w) (http w) (mkdirAll w) (writeFile w)
           (stdout w +:+ lines (matching_lines prefix patt hostArr)) (trace w)).
Proof.
  revert w. induction hostArr as [|line hostArr IH]; intros w.
  - unfold matching_lines. simpl. rewrite append_nil_r. now destruct w.
  - unfold matching_lines in *. simpl. unfold bind.
    destruct (strings.HasPrefix line patt).
    + unfold Println. rewrite IH. simpl. now rewrite !append_assoc.
    + unfold ret. rewrite IH. reflexivity.
Qed.

Section Main.

Variable Join : string -> string -> string.

(** What [getHosts] returns does not depend on the trace so far. *)
Lemma getHosts_result_indep (self : HostGetter) (w : World) (evs : list event) :
  result_of (getHosts Join self) (with_events w evs)
  = result_of (getHosts Join self) w.
Proof.
  destruct (getHosts_run Join self w)
    as [[f [Hf [Hfresh [Hread Hrun]]]]|[Hmiss [pre [Hrun _]]]].
  - pose proof (getHosts_hit Join self (with_events w evs) f Hf Hfresh Hread) as Hrun'.
    unfold result_of. now rewrite Hrun, Hrun'.
  - assert (~ cache_hit (Join (CacheLocation self) (CacheFileName self)) self
              (with_events w evs)) as Hmiss' by exact Hmiss.
    destruct (getHosts_miss Join self _ Hmiss') as [pre' [Hrun' _]].
    destruct (getHosts_through_refresh Join self w pre Hrun) as [-> _].
    destruct (getHosts_through_refresh Join self _ pre' Hrun') as [-> _].
    apply (pipeline_indep self w (with_events w evs) eq_refl).
Qed.

End Main.

Section Main_output.

Variable Join : string -> string -> string.

(** [getHosts] only adds events to the trace. *)
Lemma getHosts_trace (self : HostGetter) (w : World) :
  trace (world_after (getHosts Join self) w)
  = trace w ++ emitted (getHosts Join self) w.
Proof.
  destruct (getHosts_run Join self w)
    as [[f [Hf [Hfresh [Hread Hrun]]]]|[Hmiss [pre [Hrun _]]]].
  - rewrite (emitted_with_events _ _ _ _ Hrun). unfold world_after.
    now rewrite Hrun.
  - destruct (refresh_post Join self (with_events w pre)) as [post [Htrace _]].
    assert (trace (world_after (getHosts Join self) w)
            = trace w ++ pre ++ emitted (downloadParseHosts self) (with_events w pre)
                ++ post) as Htr.
    { unfold world_after. rewrite Hrun.
      fold (world_after
              (refresh self (Join (CacheLocation self) (CacheFileName self)))
              (with_events w pre)).
      rewrite Htrace. simpl. now rewrite <- app_assoc. }
    now rewrite (emitted_trace _ _ _ Htr).
Qed.

End Main_output.

(** X6.  With a pattern argument, once [getHosts] has returned a text,
    [main] prints exactly those lines of the text that start with the
    match pattern, in their order, each behind the display prefix and
    ended by a line feed, and exits with status 0. *)
Theorem main_prints_matching_lines
    (Join : string -> string -> string) (getter : HostGetter) (w : World)
    (arg : string) (rest : list string) (hosts patt : string) :
  result_of (getHosts Join (setPattern getter arg)) w = (hosts, None) ->
  HostPattern (setPattern getter arg) = Some patt ->
  result_of (main Join getter (arg :: rest)) w = 0
  /\ stdout (world_after (main Join getter (arg :: rest)) w)
     = stdout w +:+ lines (matching_lines (HostPrefix (setPattern getter arg)) patt
                             (strings.Split hosts LF)).
Proof.
  intros Hres Hpatt.
  pose proof (getHosts_result_indep Join (setPattern getter arg) w
                [Log "requesting pattern %s, for prefix %s"]) as Hindep.
  pose proof (getHosts_stdout Join (setPattern getter arg)
                (with_events w [Log "requesting pattern %s, for prefix %s"])) as Hout.
  rewrite Hres in Hindep. clear Hres.
  unfold result_of, world_after in *. unfold main, bind, log_Printf, emit, ret.
  destruct (getHosts Join (setPattern getter arg)
              (with_events w [Log "requesting pattern %s, for prefix %s"]))
    as [[rt err] w'].
  simpl in Hindep, Hout. injection Hindep as -> ->.
  rewrite Hpatt, printMatching_run. simpl. now rewrite Hout.
Qed.

Lemma main_prints_matching_lines_witness :
  result_of (main join_plain sample_getter ["root@al"; "ignored"]) world_at_boundary = 0
  /\ stdout (world_after (main join_plain sample_getter ["root@al"; "ignored"])
               world_at_boundary)
     = stdout world_at_boundary
       +:+ lines (matching_lines (HostPrefix (setPattern sample_getter "root@al")) "al"
                    (strings.Split three_hosts LF)).
Proof.
  apply (main_prints_matching_lines join_plain sample_getter world_at_boundary
           "root@al" ["ignored"] three_hosts "al").
  - vm_compute. reflexivity.
  - reflexivity.
Defined.

(** X7.  When [getHosts] returns an error, [main] prints nothing, leaves
    the files as they were, ends its log with the fatal message and
    exits with status 1. *)
Theorem main_fails_without_hosts
    (Join : string -> string -> string) (getter : HostGetter) (w : World)
    (args : list string) (rt : string) (e : error) :
  result_of (getHosts Join (getter_of getter args)) w = (rt, Some e) ->
  result_of (main Join getter args) w = 1
  /\ stdout (world_after (main Join getter args) w) = stdout w
  /\ files (world_after (main Join getter args) w) = files w
  /\ exists evs,
       emitted (main Join getter args) w = evs ++ [Fatal "failed to download hosts"].
Proof.
  intros Hres.
  set (w1 := match args with
             | _ :: _ => with_events w [Log "requesting pattern %s, for prefix %s"]
             | [] => w
             end).
  assert (main Join getter args w
          = let (r, w2) := getHosts Join (getter_of getter args) w1 in
            (1, with_events w2 [Fatal "failed to download hosts"])) as Hmain.
  { assert (result_of (getHosts Join (getter_of getter args)) w1 = (rt, Some e)) as Hres1.
    { subst w1. destruct args; [exact Hres|].
      now rewrite getHosts_result_indep. }
    unfold result_of in Hres1. subst w1.
    unfold main, getter_of, bind, log_Printf, emit, ret in *.
    destruct args as [|arg args]; simpl in *;
      destruct (getHosts Join _ _) as [[rt' err'] w2]; simpl in Hres1;
      injection Hres1 as -> ->; reflexivity. }
  assert (stdout w1 = stdout w /\ files w1 = files w
          /\ exists l, trace w1 = trace w ++ l) as [Hout1 [Hfiles1 [l Htrace1]]].
  { subst w1. destruct args; simpl.
    - split; [reflexivity|]. split; [reflexivity|]. exists []. now rewrite app_nil_r.
    - split; [reflexivity|]. split; [reflexivity|]. eexists. reflexivity. }
  pose proof (getHosts_stdout Join (getter_of getter args) w1) as Hout.
  pose proof (getHosts_trace Join (getter_of getter args) w1) as Htrace.
  destruct (getHosts_touches_only_cache_file Join (getter_of getter args) w1)
    as [_ Hsame].
  assert (files (world_after (getHosts Join (getter_of getter args)) w1) = files w1)
    as Hfiles.
  { apply Hsame. apply forallb_forall. intros ev Hin.
    destruct ev; try reflexivity. exfalso.
    destruct (getHosts_writes_what_it_returns_aux Join (getter_of getter args) w1
                path data Hin) as [_ Hok].
    assert (result_of (getHosts Join (getter_of getter args)) w1 = (rt, Some e)) as Hres1.
    { subst w1. destruct args; [exact Hres|]. now rewrite getHosts_result_indep. }
    rewrite Hres1 in Hok. discriminate. }
  remember (emitted (getHosts Join (getter_of getter args)) w1) as evs eqn:Hevs.
  clear Hevs Hsame.
  assert (exists r w2,
             getHosts Join (getter_of getter args) w1 = (r, w2)
             /\ stdout w2 = stdout w /\ files w2 = files w
             /\ trace w2 = trace w ++ l ++ evs) as [r [w2 [Hrun [Ho [Hf Ht]]]]].
  { unfold world_after in *.
    destruct (getHosts Join (getter_of getter args) w1) as [r w2]. simpl in *.
    exists r, w2. split; [reflexivity|]. split; [congruence|]. split; [congruence|].
    rewrite Htrace, Htrace1. now rewrite <- app_assoc. }
  rewrite Hrun in Hmain.
  split; [unfold result_of; now rewrite Hmain|].
  split; [unfold world_after; now rewrite Hmain|].
  split; [unfold world_after; now rewrite Hmain|].
  exists (l ++ evs). apply emitted_trace. unfold world_after. rewrite Hmain.
  simpl. rewrite Ht. now repeat rewrite <- app_assoc.
Qed.

Lemma main_fails_without_hosts_witness :
  result_of (main join_plain sample_getter ["root@al"]) world_empty_cache = 1
  /\ stdout (world_after (main join_plain sample_getter ["root@al"]) world_empty_cache)
     = stdout world_empty_cache
  /\ files (world_after (main join_plain sample_getter ["root@al"]) world_empty_cache)
     = files world_empty_cache
  /\ exists evs,
       emitted (main join_plain sample_getter ["root@al"]) world_empty_cache
       = evs ++ [Fatal "failed to download hosts"].
Proof.
  apply (main_fails_without_hosts join_plain sample_getter world_empty_cache
           ["root@al"] EmptyString (ExternalError "connection refused")).
  vm_compute. reflexivity.
Defined.

(** The lines of a formatted text. *)
Lemma Split_formatHosts (names : list string) :
  Forall (fun name => strings.Index name LF = None) names ->
  strings.Split (formatHosts (mkResponse (map mkResult names))) LF
  = names ++ [EmptyString].
Proof.
  intros Hnames. rewrite formatHosts_lines. simpl Results.
  rewrite map_map. simpl. rewrite map_id. now apply Split_lines.
Qed.

Lemma filter_all {A} (f : A -> bool) (l : list A) :
  (forall a, f a = true) -> List.filter f l = l.
Proof.
  intros Hf. induction l as [|a l IH]; [reflexivity|].
  simpl. now rewrite Hf, IH.
Qed.

(** X8.  What a pattern selects from a formatted host list, for names
    without line feed: with a match pattern that is not empty, the names
    that start with it, in order, each behind the display prefix; with
    the empty match pattern every name, and then one more line that
    holds the display prefix alone, for the empty piece behind the last
    line feed. *)
Theorem matching_lines_of_formatted_names (prefix patt : string) (names : list string) :
  Forall (fun name => strings.Index name LF = None) names ->
  (patt <> EmptyString ->
   matching_lines prefix patt
     (strings.Split (formatHosts (mkResponse (map mkResult names))) LF)
   = map (fun name => prefix +:+ name)
       (List.filter (fun name => strings.HasPrefix name patt) names))
  /\ matching_lines prefix EmptyString
       (strings.Split (formatHosts (mkResponse (map mkResult names))) LF)
     = map (fun name => prefix +:+ name) names ++ [prefix].
Proof.
  intros Hnames. rewrite (Split_formatHosts names Hnames).
  unfold matching_lines. split.
  - intros Hpatt. rewrite List.filter_app. simpl.
    destruct patt as [|c patt]; [congruence|]. simpl.
    now rewrite app_nil_r.
  - rewrite filter_all by apply HasPrefix_nil.
    rewrite List.map_app. simpl. now rewrite append_nil_r.
Qed.

Lemma matching_lines_of_formatted_names_witness :
  matching_lines "root@" "al"
    (strings.Split (formatHosts (mkResponse (map mkResult ["alpha"; "beta"]))) LF)
  = map (fun name => "root@" +:+ name)
      (List.filter (fun name => strings.HasPrefix name "al") ["alpha"; "beta"]).
Proof.
  apply (matching_lines_of_formatted_names "root@" "al" ["alpha"; "beta"]).
  - repeat constructor.
  - discriminate.
Defined.

(** A text with an ["@"] has a part without ["@"] before its first one. *)
Lemma Index_split (s : string) (i : nat) :
  strings.Index s "@" = Some i ->
  exists pre post, s = pre +:+ "@" +:+ post /\ strings.Index pre "@" = None.
Proof.
  revert i. induction s as [|c s IH]; intros i Hi; [discriminate|].
  simpl in Hi. destruct (Ascii.eqb c "@") eqn:Hc.
  - apply Ascii.eqb_eq in Hc as ->. exists EmptyString, s. auto.
  - destruct (strings.Index s "@") as [j|] eqn:Hj; [|discriminate].
    destruct (IH j eq_refl) as [pre [post [-> Hpre]]].
    exists (String c pre), post. split; [reflexivity|].
    simpl. now rewrite Hc, Hpre.
Qed.

(** X9.  The pattern argument is split at its first ["@"] and nothing of
    it is lost: without an ["@"] it is the match pattern as a whole and
    the display prefix stays what it was; with one, the display prefix
    is the part up to and including the first ["@"], the match pattern
    the rest, and the two put together are the argument.  The values of
    the flags are left alone. *)
Theorem setPattern_splits_at_first_at (getter : HostGetter) (arg : string) :
  (strings.Index arg "@" = None ->
   HostPattern (setPattern getter arg) = Some arg
   /\ HostPrefix (setPattern getter arg) = HostPrefix getter)
  /\ (forall i, strings.Index arg "@" = Some i ->
        exists pre post,
          strings.Index pre "@" = None
          /\ HostPrefix (setPattern getter arg) = pre +:+ "@"
          /\ HostPattern (setPattern getter arg) = Some post
          /\ arg = (pre +:+ "@") +:+ post)
  /\ DownloadLocation (setPattern getter arg) = DownloadLocation getter
  /\ CacheLocation (setPattern getter arg) = CacheLocation getter
  /\ CacheFileName (setPattern getter arg) = CacheFileName getter
  /\ CacheDuration (setPattern getter arg) = CacheDuration getter.
Proof.
  split; [|split].
  - intros Hno. unfold setPattern. rewrite Hno. auto.
  - intros i Hi. destruct (Index_split arg i Hi) as [pre [post [-> Hpre]]].
    exists pre, post. split; [exact Hpre|].
    unfold setPattern. rewrite (Index_at pre post Hpre). simpl.
    split; [apply (substring_head pre post "@")|].
    split; [f_equal; apply (substring_tail pre post "@")|].
    now rewrite append_assoc.
  - destruct (setPattern_config getter arg) as [H1 [H2 [_ [_ [H5 H6]]]]]. auto.
Qed.

Lemma setPattern_splits_at_first_at_witness :
  (HostPattern (setPattern sample_getter "alpha") = Some "alpha"
   /\ HostPrefix (setPattern sample_getter "alpha") = HostPrefix sample_getter)
  /\ exists pre post,
       strings.Index pre "@" = None
       /\ HostPrefix (setPattern sample_getter "root@al@x") = pre +:+ "@"
       /\ HostPattern (setPattern sample_getter "root@al@x") = Some post
       /\ "root@al@x" = (pre +:+ "@") +:+ post.
Proof.
  split.
  - apply (setPattern_splits_at_first_at sample_getter "alpha"). reflexivity.
  - apply (proj1 (proj2 (setPattern_splits_at_first_at sample_getter "root@al@x"))
             4%nat).
    reflexivity.
Defined.

(** ** Decoding a host list *)

(** Members that do not select the field leave a fold over them where it
    was. *)
Lemma fold_unknown {S} (field : string) (step : S -> string * json.value -> S)
    (members : list (string * json.value)) (st : S) :
  unknown_to field members ->
  fold_left
    (fun st m => if json.field_matches field (fst m) then step st m else st)
    members st = st.
Proof.
  induction 1 as [|m members Hm _ IH]; [reflexivity|].
  simpl. now rewrite Hm.
Qed.

(** One member that selects the field, among members that do not. *)
Lemma fold_single {S} (field : string) (step : S -> string * json.value -> S)
    (before after : list (string * json.value)) (m : string * json.value) (st : S) :
  unknown_to field before ->
  unknown_to field after ->
  json.field_matches field (fst m) = true ->
  fold_left
    (fun st m => if json.field_matches field (fst m) then step st m else st)
    (before ++ m :: after) st = step st m.
Proof.
  intros Hbefore Hafter Hm. rewrite fold_left_app.
  rewrite (fold_unknown field step before st Hbefore).
  simpl. rewrite Hm. apply (fold_unknown field step after _ Hafter).
Qed.

(** A host record gives its name, whatever the variable held. *)
Lemma decode_host_record (r : list (string * json.value) * string
                              * list (string * json.value))
    (cur : Result) (saved : option error) :
  unknown_to "Name" (fst (fst r)) ->
  unknown_to "Name" (snd r) ->
  json.decode_Result (host_record r) cur saved = (mkResult (snd (fst r)), saved).
Proof.
  destruct r as [[before name] after]. simpl. intros Hbefore Hafter.
  unfold json.decode_Result, host_record. simpl fst. simpl snd.
  rewrite (fold_single "Name"
             (fun st m => let (name, saved') :=
                            json.decode_string (snd m) (Name (fst st)) (snd st) in
                          (mkResult name, saved'))
             before after ("Name", json.Str name) (cur, saved) Hbefore Hafter eq_refl).
  reflexivity.
Qed.

Lemma decode_host_records
    (rs : list (list (string * json.value) * string * list (string * json.value)))
    (store : list Result) (saved : option error) :
  Forall (fun r => unknown_to "Name" (fst (fst r)) /\ unknown_to "Name" (snd r)) rs ->
  json.decode_elems (map host_record rs) store saved
  = (map (fun r => mkResult (snd (fst r))) rs,
     skipn (List.length rs) store, saved).
Proof.
  intros Hrs. revert store.
  induction Hrs as [|r rs [Hb Ha] _ IH]; intros store; [reflexivity|].
  change (json.decode_elems (map host_record (r :: rs)) store saved)
    with (let (r', saved1) :=
            json.decode_Result (host_record r) (hd (mkResult EmptyString) store) saved in
          let '(rs', rest, saved2) :=
            json.decode_elems (map host_record rs) (tl store) saved1 in
          (r' :: rs', rest, saved2)).
  rewrite (decode_host_record r _ saved Hb Ha). rewrite IH.
  destruct store as [|slot store]; [|reflexivity].
  simpl. now rewrite List.skipn_nil.
Qed.

(** The decoding of an object with one [Results] member, of host
    records. *)
Lemma decode_host_list
    (before after : list (string * json.value))
    (rs : list (list (string * json.value) * string * list (string * json.value))) :
  unknown_to "Results" before ->
  unknown_to "Results" after ->
  Forall (fun r => unknown_to "Name" (fst (fst r)) /\ unknown_to "Name" (snd r)) rs ->
  json.decode_Response
    (json.Object (before ++ ("Results", json.Array (map host_record rs)) :: after))
    (mkResponse [])
  = (mkResponse (map (fun r => mkResult (snd (fst r))) rs), None).
Proof.
  intros Hbefore Hafter Hrs. unfold json.decode_Response. simpl Results.
  rewrite (fold_single "Results"
             (fun st m => json.decode_Results (snd m) (fst (fst st))
                            (snd (fst st)) (snd st))
             before after ("Results", json.Array (map host_record rs))
             ([], [], None) Hbefore Hafter eq_refl).
  simpl fst. simpl snd.
  destruct rs as [|r rs]; [reflexivity|].
  change (json.decode_Results (json.Array (map host_record (r :: rs))) [] [] None)
    with (json.decode_elems (map host_record (r :: rs)) ([] ++ []) None).
  rewrite (decode_host_records (r :: rs) _ None Hrs).
  reflexivity.
Qed.

(** X10.  Only [Results] and [Name] are read.  For a payload whose
    object holds the member [Results] among members that do not select
    that field, with an array of host records each of which holds the
    member [Name], a string, among members that do not select that
    field, decoding gives the names in the order of the array and no
    error, and the pipeline one name per line. *)
Theorem Unmarshal_reads_names_only
    (self : HostGetter) (w : World) (data : string)
    (before after : list (string * json.value))
    (rs : list (list (string * json.value) * string * list (string * json.value))) :
  json.parse_value data
  = Some (json.Object
            (before ++ ("Results", json.Array (map host_record rs)) :: after)) ->
  unknown_to "Results" before ->
  unknown_to "Results" after ->
  Forall (fun r => unknown_to "Name" (fst (fst r)) /\ unknown_to "Name" (snd r)) rs ->
  http w (DownloadLocation self) (User self) (Password self) = Body data ->
  json.Unmarshal data (mkResponse [])
  = (mkResponse (map (fun r => mkResult (snd (fst r))) rs), None)
  /\ result_of (downloadParseHosts self) w
     = (lines (map (fun r => snd (fst r)) rs), None).
Proof.
  intros Hparse Hbefore Hafter Hrs Hnet.
  assert (json.Unmarshal data (mkResponse [])
          = (mkResponse (map (fun r => mkResult (snd (fst r))) rs), None)) as Hjson.
  { unfold json.Unmarshal. rewrite Hparse.
    now apply decode_host_list. }
  split; [exact Hjson|].
  rewrite (pipeline_on_body self w data Hnet), Hjson.
  rewrite formatHosts_lines. simpl Results. now rewrite map_map.
Qed.

Lemma Unmarshal_reads_names_only_witness :
  json.Unmarshal payload_with_other_fields (mkResponse [])
  = (mkResponse
       (map (fun r => mkResult (snd (fst r)))
          [([("Id", json.Number)], "alpha", []);
           ([], "beta", [("Ip", json.Null)])]), None)
  /\ result_of (downloadParseHosts sample_getter)
       (sample_world ∅ 0 (Body payload_with_other_fields))
     = (lines (map (fun r => snd (fst r))
                 [([("Id", json.Number)], "alpha", []);
                  ([], "beta", [("Ip", json.Null)])]), None).
Proof.
  apply (Unmarshal_reads_names_only sample_getter
           (sample_world ∅ 0 (Body payload_with_other_fields))
           payload_with_other_fields [("total", json.Number)] []).
  - vm_compute. reflexivity.
  - repeat constructor.
  - constructor.
  - repeat constructor.
  - reflexivity.
Defined.

(** ** The payload of a host list, from its text *)

Lemma lex_run_app (st : json.lex_state) (s1 s2 : string) :
  lex_run st (s1 +:+ s2)
  = match lex_run st s1 with
    | Some (st', toks) =>
        match lex_run st' s2 with
        | Some (st'', toks') => Some (st'', toks ++ toks')
        | None => None
        end
    | None => None
    end.
Proof.
  revert st. induction s1 as [|c s1 IH]; intros st.
  - change (EmptyString +:+ s2) with s2. simpl.
    now destruct (lex_run st s2) as [[st' toks]|].
  - rewrite append_cons. simpl.
    destruct (json.lex_step st c) as [[st1 toks1]|]; [|reflexivity].
    rewrite IH.
    destruct (lex_run st1 s1) as [[st2 toks2]|]; [|reflexivity].
    destruct (lex_run st2 s2) as [[st3 toks3]|]; [|reflexivity].
    now rewrite app_assoc.
Qed.

Lemma lex_run_cons (st : json.lex_state) (c : ascii) (data : string) :
  lex_run st (String c data)
  = match json.lex_step st c with
    | Some (st', toks) =>
        match lex_run st' data with
        | Some (st'', toks') => Some (st'', toks ++ toks')
        | None => None
        end
    | None => None
    end.
Proof. reflexivity. Qed.

(** The scanner over the whole input. *)
Lemma lex_of_run (st st' : json.lex_state) (data : string) (toks : list json.token) :
  lex_run st data = Some (st', toks) ->
  json.lex st data = option_map (app toks) (json.lex_eof st').
Proof.
  revert st toks. induction data as [|c data IH]; intros st toks Hrun; simpl in *.
  - injection Hrun as Hst Htoks. subst. now destruct (json.lex_eof _).
  - destruct (json.lex_step st c) as [[st1 toks1]|]; [|discriminate].
    destruct (lex_run st1 data) as [[st2 toks2]|] eqn:Hrest; [|discriminate].
    injection Hrun as Hst Htoks. subst. rewrite (IH st1 toks2 Hrest).
    destruct (json.lex_eof _); simpl; [now rewrite app_assoc|reflexivity].
Qed.

Lemma plain_byte_step (c : ascii) (acc : list ascii) :
  plain_byte c = true ->
  json.lex_step (json.stateInString acc) c = Some (json.stateInString (c :: acc), []).
Proof.
  intros Hc. unfold json.lex_step.
  destruct (Ascii.eqb c json.dquote) eqn:Hq.
  { apply Ascii.eqb_eq in Hq. subst c. discriminate. }
  destruct (Ascii.eqb c "\") eqn:Hb.
  { apply Ascii.eqb_eq in Hb. subst c. discriminate. }
  unfold plain_byte in Hc.
  destruct (32 <=? json.byte_of c) eqn:Hlow; [|discriminate].
  apply Z.leb_le in Hlow.
  destruct (Z.ltb_spec (json.byte_of c) 32); [lia|reflexivity].
Qed.

(** A plain text between quotes is one string token. *)
Lemma lex_run_string (s : string) (acc : list ascii) :
  plain s = true ->
  lex_run (json.stateInString acc) (s +:+ String json.dquote EmptyString)
  = Some (json.stateBeginValue,
          [json.TString (string_of_list_ascii (rev acc ++ list_ascii_of_string s))]).
Proof.
  revert acc. induction s as [|c s IH]; intros acc Hs.
  - change (EmptyString +:+ String json.dquote EmptyString)
      with (String json.dquote EmptyString).
    simpl. now rewrite app_nil_r.
  - simpl in Hs. apply andb_prop in Hs as [Hc Hs].
    rewrite append_cons, lex_run_cons. rewrite (plain_byte_step c acc Hc).
    rewrite (IH (c :: acc) Hs). simpl. now rewrite <- app_assoc.
Qed.

Lemma lex_run_quoted (s : string) :
  plain s = true ->
  lex_run json.stateBeginValue (quoted s) = Some (json.stateBeginValue, [json.TString s]).
Proof.
  intros Hs. unfold quoted. rewrite append_cons, lex_run_cons.
  change (json.lex_step json.stateBeginValue json.dquote)
    with (Some (json.stateInString [], @nil json.token)).
  cbv beta iota. rewrite (lex_run_string s [] Hs). simpl.
  now rewrite string_of_list_ascii_of_string.
Qed.

(** Escapes and bytes beyond ASCII apart, a text is its own reading. *)
Lemma unquote_plain (s : string) : plain s = true -> json.unquote s = s.
Proof.
  induction s as [|c s IH]; [reflexivity|].
  simpl plain. intros Hs. apply andb_prop in Hs as [Hc Hs].
  assert (Ascii.eqb c "\" = false) as Hb.
  { destruct (Ascii.eqb c "\") eqn:Hb; [|reflexivity].
    apply Ascii.eqb_eq in Hb. subst c. discriminate. }
  assert ((json.byte_of c <? 128) = true) as Hlt.
  { unfold plain_byte in Hc.
    destruct (32 <=? json.byte_of c); [|discriminate].
    destruct (json.byte_of c <? 128); [reflexivity|discriminate]. }
  simpl json.unquote. rewrite Hb, Hlt. now rewrite (IH Hs).
Qed.

Lemma lex_run_seq (st st' st'' : json.lex_state) (s1 s2 : string)
    (toks toks' : list json.token) :
  lex_run st s1 = Some (st', toks) ->
  lex_run st' s2 = Some (st'', toks') ->
  lex_run st (s1 +:+ s2) = Some (st'', toks ++ toks').
Proof. intros H1 H2. now rewrite lex_run_app, H1, H2. Qed.

Lemma lex_run_record (name : string) :
  plain name = true ->
  lex_run json.stateBeginValue (record_text name)
  = Some (json.stateBeginValue, record_tokens name).
Proof.
  intros Hname. unfold record_text.
  change (record_tokens name)
    with ([json.TLBrace] ++ [json.TString "Name"] ++ [json.TColon]
          ++ [json.TString name] ++ [json.TRBrace]).
  apply lex_run_seq with (st' := json.stateBeginValue); [reflexivity|].
  apply lex_run_seq with (st' := json.stateBeginValue);
    [now apply lex_run_quoted|].
  apply lex_run_seq with (st' := json.stateBeginValue); [reflexivity|].
  apply lex_run_seq with (st' := json.stateBeginValue);
    [now apply lex_run_quoted|reflexivity].
Qed.

Lemma lex_run_more_records (names : list string) :
  forallb plain names = true ->
  lex_run json.stateBeginValue (more_records names)
  = Some (json.stateBeginValue,
          flat_map (fun name => json.TComma :: record_tokens name) names).
Proof.
  induction names as [|name names IH]; [reflexivity|].
  simpl forallb. intros H. apply andb_prop in H as [Hname Hnames].
  simpl more_records.
  change (flat_map (fun name => json.TComma :: record_tokens name) (name :: names))
    with ([json.TComma] ++ record_tokens name
          ++ flat_map (fun name => json.TComma :: record_tokens name) names).
  apply lex_run_seq with (st' := json.stateBeginValue); [reflexivity|].
  apply lex_run_seq with (st' := json.stateBeginValue);
    [now apply lex_run_record|now apply IH].
Qed.

(** The tokens of the payload of a host list. *)
Lemma lex_payload_of (names : list string) :
  forallb plain names = true ->
  json.lex json.stateBeginValue (payload_of names)
  = Some ([json.TLBrace; json.TString "Results"; json.TColon; json.TLBracket]
          ++ match names with
             | [] => []
             | name :: names' =>
                 record_tokens name
                 ++ flat_map (fun name => json.TComma :: record_tokens name) names'
             end
          ++ [json.TRBracket; json.TRBrace]).
Proof.
  intros Hnames.
  assert (lex_run json.stateBeginValue (payload_of names)
          = Some (json.stateBeginValue,
                  [json.TLBrace; json.TString "Results"; json.TColon; json.TLBracket]
                  ++ match names with
                     | [] => []
                     | name :: names' =>
                         record_tokens name
                         ++ flat_map (fun name => json.TComma :: record_tokens name)
                              names'
                     end
                  ++ [json.TRBracket; json.TRBrace])) as Hrun.
  { unfold payload_of.
    change ([json.TLBrace; json.TString "Results"; json.TColon; json.TLBracket]
            ++ ?mid ++ [json.TRBracket; json.TRBrace])
      with ([json.TLBrace] ++ [json.TString "Results"] ++ [json.TColon; json.TLBracket]
            ++ mid ++ [json.TRBracket; json.TRBrace]).
    apply lex_run_seq with (st' := json.stateBeginValue); [reflexivity|].
    apply lex_run_seq with (st' := json.stateBeginValue);
      [now apply lex_run_quoted|].
    apply lex_run_seq with (st' := json.stateBeginValue); [reflexivity|].
    apply lex_run_seq with (st' := json.stateBeginValue); [|reflexivity].
    destruct names as [|name names]; [reflexivity|].
    simpl in Hnames. apply andb_prop in Hnames as [Hname Hnames].
    apply lex_run_seq with (st' := json.stateBeginValue);
      [now apply lex_run_record|now apply lex_run_more_records]. }
  rewrite (lex_of_run _ _ _ _ Hrun). simpl. now rewrite app_nil_r.
Qed.

(** The tokens of a record, read inside the array. *)
Lemma parse_record (e : json.expect) (name : string) (elems : list json.value)
    (ts : list json.token) :
  e = json.BeginValue \/ e = json.BeginValueOrEmpty ->
  plain name = true ->
  json.parse_tokens e (in_results elems) (record_tokens name ++ ts)
  = json.parse_tokens json.EndValue (in_results (record_value name :: elems)) ts.
Proof.
  intros He Hname. unfold record_tokens, in_results, record_value.
  destruct He as [-> | ->]; simpl; now rewrite (unquote_plain name Hname).
Qed.

Lemma parse_more_records (names : list string) (elems : list json.value)
    (ts : list json.token) :
  forallb plain names = true ->
  json.parse_tokens json.EndValue (in_results elems)
    (flat_map (fun name => json.TComma :: record_tokens name) names ++ ts)
  = json.parse_tokens json.EndValue
      (in_results (rev (map record_value names) ++ elems)) ts.
Proof.
  revert elems. induction names as [|name names IH]; intros elems; [reflexivity|].
  simpl forallb. intros H. apply andb_prop in H as [Hname Hnames].
  change (flat_map (fun name => json.TComma :: record_tokens name) (name :: names) ++ ts)
    with (json.TComma
          :: (record_tokens name
              ++ (flat_map (fun name => json.TComma :: record_tokens name) names ++ ts))).
  change (json.parse_tokens json.EndValue (in_results elems)
            (json.TComma :: ?rest))
    with (json.parse_tokens json.BeginValue (in_results elems) rest).
  rewrite (parse_record json.BeginValue name elems _ (or_introl eq_refl) Hname).
  rewrite (IH _ Hnames). simpl. now rewrite <- app_assoc.
Qed.

(** The value of the payload of a host list. *)
Lemma parse_payload_of (names : list string) :
  forallb plain names = true ->
  json.parse_value (payload_of names)
  = Some (json.Object [("Results", json.Array (map record_value names))]).
Proof.
  intros Hnames. unfold json.parse_value. rewrite (lex_payload_of names Hnames).
  destruct names as [|name names]; [reflexivity|].
  simpl in Hnames. apply andb_prop in Hnames as [Hname Hnames].
  change (json.parse_tokens json.BeginValue []
            ([json.TLBrace; json.TString "Results"; json.TColon; json.TLBracket]
             ++ ?rest))
    with (json.parse_tokens json.BeginValueOrEmpty (in_results []) rest).
  rewrite <- app_assoc.
  rewrite (parse_record json.BeginValueOrEmpty name [] _ (or_intror eq_refl) Hname).
  rewrite (parse_more_records names _ _ Hnames).
  simpl. rewrite rev_app_distr, rev_involutive. reflexivity.
Qed.

(** The decoding of the payload of a host list. *)
Lemma Unmarshal_payload_of (names : list string) :
  forallb plain names = true ->
  json.Unmarshal (payload_of names) (mkResponse [])
  = (mkResponse (map mkResult names), None).
Proof.
  intros Hnames.
  unfold json.Unmarshal. rewrite (parse_payload_of names Hnames).
  assert (map record_value names
          = map host_record (map (fun name => ([], name, [])) names)) as ->
    by (rewrite map_map; reflexivity).
  change (json.Object
            [("Results",
              json.Array
                (map host_record (map (fun name => ([], name, [])) names)))])
    with (json.Object
            ([] ++ ("Results",
                    json.Array
                      (map host_record (map (fun name => ([], name, [])) names)))
                :: [])).
  rewrite (decode_host_list [] [] (map (fun name => ([], name, [])) names)).
  - now rewrite map_map.
  - constructor.
  - constructor.
  - clear. induction names as [|name names IH]; constructor; [|exact IH].
    split; constructor.
Qed.

(** What the pipeline returns for the payload of a host list. *)
Lemma pipeline_payload_of (self : HostGetter) (w : World) (names : list string) :
  forallb plain names = true ->
  http w (DownloadLocation self) (User self) (Password self)
  = Body (payload_of names) ->
  result_of (downloadParseHosts self) w = (lines names, None).
Proof.
  intros Hnames Hnet.
  rewrite (pipeline_on_body self w _ Hnet), (Unmarshal_payload_of names Hnames).
  rewrite formatHosts_lines. simpl Results. rewrite map_map. simpl.
  now rewrite map_id.
Qed.

(** X11.  The wire format is read from its text: for every list of host
    names of printable ASCII without double quote and backslash, the
    payload [{"Results":[{"Name":"n1"},{"Name":"n2"},...]}] is accepted,
    decodes to the names in their order, and the pipeline returns them
    one per line with no error. *)
Theorem pipeline_reads_host_list
    (self : HostGetter) (w : World) (names : list string) :
  forallb plain names = true ->
  http w (DownloadLocation self) (User self) (Password self)
  = Body (payload_of names) ->
  json.Unmarshal (payload_of names) (mkResponse [])
  = (mkResponse (map mkResult names), None)
  /\ result_of (downloadParseHosts self) w = (lines names, None).
Proof.
  intros Hnames Hnet. split.
  - now apply Unmarshal_payload_of.
  - now apply pipeline_payload_of.
Qed.

Lemma pipeline_reads_host_list_witness :
  json.Unmarshal (payload_of ["web-01.example.org"; "db 2"]) (mkResponse [])
  = (mkResponse (map mkResult ["web-01.example.org"; "db 2"]), None)
  /\ result_of (downloadParseHosts sample_getter)
       (sample_world ∅ 0 (Body (payload_of ["web-01.example.org"; "db 2"])))
     = (lines ["web-01.example.org"; "db 2"], None).
Proof.
  apply (pipeline_reads_host_list sample_getter
           (sample_world ∅ 0 (Body (payload_of ["web-01.example.org"; "db 2"])))
           ["web-01.example.org"; "db 2"]).
  - reflexivity.
  - reflexivity.
Defined.

(** ** From the network to the terminal *)






